(** * reduce_bench.cu: the measurement and registration driver

    A shallow embedding of [src/reduce_bench.cu]: the shared timing loop
    [generic], the case body [automatic], and [main] (workload setup,
    target logging, static and dynamic case registration).

    Numbers are modelled as the code has them: [size_t] as an integer
    reduced modulo 2^64, [float] and [double] as IEEE 754 binary32 and
    binary64 values of the Standard Library's [SpecFloat] (round to nearest,
    ties to even), the counter table of [benchmark::State] as a finite map
    keyed by strings. *)

From Stdlib Require Import ZArith List String Ascii Bool Lia.
From Stdlib Require Import Floats.SpecFloat.
From stdpp Require Import gmap strings pretty.

Local Open Scope Z_scope.

(** ** IEEE 754 arithmetic of [float] and [double] *)

Module F64.

Definition prec : Z := 53.
Definition emax : Z := 1024.

Definition t := spec_float.

(** Conversion of an integer to [double] (what [static_cast<double>] does
    to a [size_t]). *)
Definition of_Z (n : Z) : t := binary_normalize prec emax n 0 false.

Definition one : t := of_Z 1.
Definition hundred : t := of_Z 100.

Definition add : t -> t -> t := SFadd prec emax.
Definition sub : t -> t -> t := SFsub prec emax.
Definition mul : t -> t -> t := SFmul prec emax.
Definition div : t -> t -> t := SFdiv prec emax.
Definition abs : t -> t := SFabs.

Definition is_finite (x : t) : bool :=
  match x with
  | S754_zero _ | S754_finite _ _ _ => true
  | S754_infinity _ | S754_nan => false
  end.

(** The integer a value denotes, when it denotes one. *)
Definition to_Z (x : t) : option Z :=
  match x with
  | S754_zero _ => Some 0
  | S754_finite s m e =>
      let v := if s then Z.neg m else Z.pos m in
      if 0 <=? e then Some (v * 2 ^ e)
      else if v mod 2 ^ (- e) =? 0 then Some (v / 2 ^ (- e)) else None
  | S754_infinity _ | S754_nan => None
  end.

End F64.

Module F32.

Definition prec : Z := 24.
Definition emax : Z := 128.

Definition t := spec_float.

Definition of_Z (n : Z) : t := binary_normalize prec emax n 0 false.

(** The literal [1.f]. *)
Definition one : t := of_Z 1.

End F32.

(** ** Data model *)

(** [size_t]: 64 bits, unsigned, wrapping. *)
Definition size_t_modulus : Z := 2 ^ 64.
Definition to_size_t (z : Z) : Z := z mod size_t_modulus.
Definition sizeof_float : Z := 4.

Definition LONG_MAX : Z := 2 ^ 63 - 1.
Definition LONG_MIN : Z := - 2 ^ 63.

(** [std::vector<float>]: its length and the element stored at each index
    below the length. *)
Record vector := { vec_size : Z; vec_at : Z -> F32.t }.

Definition vec_in_range (v : vector) (i : Z) : bool := (0 <=? i) && (i <? vec_size v).

Definition vec_empty : vector := {| vec_size := 0; vec_at := fun _ => S754_zero false |}.

(** [v.resize(n)]: the first elements are kept, new ones are value-initialised. *)
Definition vec_resize (n : Z) (v : vector) : vector :=
  {| vec_size := n;
     vec_at := fun i => if vec_in_range v i then vec_at v i else S754_zero false |}.

(** [std::fill(v.begin(), v.end(), x)]. *)
Definition vec_fill (x : F32.t) (v : vector) : vector :=
  {| vec_size := vec_size v;
     vec_at := fun i => if vec_in_range v i then x else vec_at v i |}.

(** [benchmark::Counter]. *)
Inductive Flags := kDefaults | kIsRate.
Record Counter := { value : F64.t; flags : Flags }.

(** [benchmark::State], as far as [generic] reads and writes it: the number
    of passes the range-for over the state makes (which is also what
    [iterations()] returns once the loop is over), the index of the measuring
    thread, and the table of user counters. *)
Record State := {
  max_iterations : Z;
  thread_index : Z;
  counters : gmap string Counter
}.

Definition iterations (state : State) : Z := max_iterations state.

Definition set_counter (key : string) (c : Counter) (state : State) : State :=
  {| max_iterations := max_iterations state;
     thread_index := thread_index state;
     counters := <[key := c]> (counters state) |}.

(** ** The timed loop: [generic] (lines 14-30) *)

Record Measurement (A : Type) := {
  m_state : State;      (* the state the framework gets back *)
  m_accumulator : A;    (* the accumulator after its last call *)
  m_sum : F64.t;        (* the local [sum] *)
  m_error : F64.t       (* the local [error] *)
}.
Arguments m_state {A}.
Arguments m_accumulator {A}.
Arguments m_sum {A}.
Arguments m_error {A}.

Section Generic.

(** The [static] global [dataset]. *)
Variable dataset : vector.

(** The callable [accumulator]: a call gives a sum and may change the
    accumulator's own state. *)
Context {A : Type}.
Variable call : A -> F64.t * A.

(** Line 15. *)
Definition sum_expected : F64.t := F64.mul (F64.of_Z (vec_size dataset)) F64.one.

(** Lines 19-21, one pass of the loop body: the new [sum], the new
    [error], the accumulator. [bm::DoNotOptimize(sum)] changes no value. *)
Definition loop_body (accumulator : A) : F64.t * F64.t * A :=
  let (sum, accumulator') := call accumulator in
  let error := F64.div (F64.abs (F64.sub sum_expected sum)) sum_expected in
  (sum, error, accumulator').

(** Lines 18-22: [n] passes. *)
Fixpoint timed_loop (n : nat) (sum error : F64.t) (accumulator : A)
  : F64.t * F64.t * A :=
  match n with
  | O => (sum, error, accumulator)
  | S n' =>
      let '(sum', error', accumulator') := loop_body accumulator in
      timed_loop n' sum' error' accumulator'
  end.

(** The values of [sum] and [error] at the end of each pass, in order. *)
Fixpoint loop_trace (n : nat) (accumulator : A) : list (F64.t * F64.t) :=
  match n with
  | O => []
  | S n' =>
      let '(sum', error', accumulator') := loop_body accumulator in
      (sum', error') :: loop_trace n' accumulator'
  end.

(** Lines 24-29. *)
Definition publish (state : State) (error : F64.t) : State :=
  if thread_index state =? 0 then
    let total_ops := to_size_t (iterations state * vec_size dataset) in
    let state := set_counter "adds/s" {| value := F64.of_Z total_ops; flags := kIsRate |} state in
    let state := set_counter "bytes/s"
                   {| value := F64.of_Z (to_size_t (total_ops * sizeof_float));
                      flags := kIsRate |} state in
    set_counter "error,%" {| value := F64.mul error F64.hundred; flags := kDefaults |} state
  else state.

Definition generic (state : State) (accumulator : A) : Measurement A :=
  let '(sum, error, accumulator') :=
    timed_loop (Z.to_nat (max_iterations state)) (F64.of_Z 0) (F64.of_Z 0) accumulator in
  {| m_state := publish state error;
     m_accumulator := accumulator';
     m_sum := sum;
     m_error := error |}.

End Generic.

(** ** Accumulators and what the headers provide *)

(** An accumulator class: constructed over the range of the dataset, then
    callable with no arguments. The classes themselves live in
    [reduce_cpu.hpp], [reduce_cuda.hpp] and [reduce_opencl.hpp]; the driver
    is generic in them. *)
Record accumulator_class := {
  acc_t : Type;
  acc_construct : vector -> acc_t;
  acc_call : acc_t -> F64.t * acc_t
}.

(** The template arguments [automatic] is instantiated with in [main]. *)
Inductive accumulator_name :=
| cpu_baseline_gt_float | cpu_baseline_gt_double
| cpu_openmp_t
| cpu_par_gt_float | cpu_par_gt_double
| cpu_par_unseq_gt_float | cpu_par_unseq_gt_double
| cpu_avx2_f32_t | cpu_avx2_kahan_t | cpu_avx2_f64_t | cpu_avx2_f64_by32_t
| cuda_cub_t | cuda_warps_t | cuda_thrust_t.

Definition is_cuda (a : accumulator_name) : bool :=
  match a with
  | cuda_cub_t | cuda_warps_t | cuda_thrust_t => true
  | _ => false
  end.

(** An element of the list [opencl_targets()] returns. *)
Record opencl_target := {
  device_name : string;
  device_version : string;
  driver_version : string;
  language_version : string
}.

(** What [main] takes from outside this file: the discovery functions and
    tables of the headers, the accumulator classes, and whether the
    allocation of [resize] succeeds. *)
Record Env := {
  opencl_targets : list opencl_target;
  cuda_device_count : Z;
  kernels_k : list string;
  opencl_wg_sizes : list Z;
  can_allocate : Z -> bool;
  accumulator_of : accumulator_name -> accumulator_class;
  opencl_t : opencl_target -> Z -> string -> accumulator_class
}.

(** ** Registered cases *)

(** The variables of the three nested loops that the lambda of line 85
    mentions. *)
Record loop_vars := {
  lv_tgt : opencl_target;
  lv_group_size : Z;
  lv_kernel_name : string
}.

(** How a lambda holds the variables it mentions: [[=]] stores copies made
    when the lambda is created, [[&]] reads the variables when it runs. *)
Inductive capture_default := by_copy | by_reference.

Record closure := {
  cl_capture : capture_default;
  cl_created : loop_vars      (* the loop variables when the lambda was created *)
}.

(** The values a closure sees when it runs while the loop variables hold
    [current]. *)
Definition closure_vars (current : loop_vars) (c : closure) : loop_vars :=
  match cl_capture c with
  | by_copy => cl_created c
  | by_reference => current
  end.

Inductive bench_function :=
| automatic_of (a : accumulator_name)      (* [&automatic<a>] *)
| opencl_lambda (c : closure).             (* the lambda of lines 85-89 *)

(** An entry of the framework's registry; [RegisterBenchmark] copies the
    name it is given. *)
Record Benchmark := {
  bench_name : string;
  bench_fn : bench_function;
  bench_min_time : Z;
  bench_real_time : bool
}.

(** [automatic<accumulator_at>] (lines 32-35). *)
Definition automatic (dataset : vector) (cls : accumulator_class) (state : State)
  : Measurement (acc_t cls) :=
  let acc := acc_construct cls dataset in
  generic dataset (acc_call cls) state acc.

(** The body of the lambda (lines 86-88). *)
Definition opencl_case (env : Env) (dataset : vector) (v : loop_vars) (state : State)
  : Measurement (acc_t (opencl_t env (lv_tgt v) (lv_group_size v) (lv_kernel_name v))) :=
  let cls := opencl_t env (lv_tgt v) (lv_group_size v) (lv_kernel_name v) in
  let ocl := acc_construct cls dataset in
  generic dataset (acc_call cls) state ocl.

(** What the framework observes of one run of a case. *)
Record Report := { r_state : State; r_sum : F64.t; r_error : F64.t }.

Definition report {A} (m : Measurement A) : Report :=
  {| r_state := m_state m; r_sum := m_sum m; r_error := m_error m |}.

(** One run of a registered case by the framework, with the state the
    framework hands it. [current] is what the loop variables of [main] hold
    at that time. *)
Definition run_case (env : Env) (dataset : vector) (current : loop_vars)
    (b : Benchmark) (state : State) : Report :=
  match bench_fn b with
  | automatic_of a => report (automatic dataset (accumulator_of env a) state)
  | opencl_lambda c => report (opencl_case env dataset (closure_vars current c) state)
  end.

(** ** [std::atol] *)

Definition isspace (c : ascii) : bool :=
  let n := nat_of_ascii c in
  Nat.eqb n 32 || (Nat.leb 9 n && Nat.leb n 13).

Definition digit_value (c : ascii) : option Z :=
  let n := Z.of_nat (nat_of_ascii c) in
  if (48 <=? n) && (n <=? 57) then Some (n - 48) else None.

Fixpoint skip_spaces (s : string) : string :=
  match s with
  | String c s' => if isspace c then skip_spaces s' else s
  | EmptyString => s
  end.

(** The value of the longest prefix of decimal digits, left to right. *)
Fixpoint read_digits (acc : Z) (s : string) : Z :=
  match s with
  | String c s' =>
      match digit_value c with
      | Some d => read_digits (acc * 10 + d) s'
      | None => acc
      end
  | EmptyString => acc
  end.

Definition clamp_long (z : Z) : Z := Z.max LONG_MIN (Z.min LONG_MAX z).

(** Leading white space, an optional sign, decimal digits; no digits give 0.
    A value outside [long] is clamped, as [strtol] does. *)
Definition atol (s : string) : Z :=
  match skip_spaces s with
  | String "-" s' => clamp_long (- read_digits 0 s')
  | String "+" s' => clamp_long (read_digits 0 s')
  | s' => clamp_long (read_digits 0 s')
  end.

(** ** The process: standard output, the registry, the global dataset *)

Record Process := {
  stdout : list string;
  registry : list Benchmark;
  dataset : vector
}.

Definition initial_process : Process :=
  {| stdout := []; registry := []; dataset := vec_empty |}.

Inductive exception := bad_alloc_or_length_error.

Inductive outcome (A : Type) :=
| Returned (a : A) (p : Process)
| Thrown (e : exception) (p : Process).
Arguments Returned {A}.
Arguments Thrown {A}.

Definition M (A : Type) : Type := Process -> outcome A.

#[global] Instance M_ret : MRet M := fun A a p => Returned a p.

#[global] Instance M_bind : MBind M := fun A B k m p =>
  match m p with
  | Returned a p' => k a p'
  | Thrown e p' => Thrown e p'
  end.

Fixpoint for_each {X} (l : list X) (body : X -> M unit) : M unit :=
  match l with
  | [] => mret tt
  | x :: l' => body x ;; for_each l' body
  end.

Definition newline : string := String (ascii_of_nat 10) EmptyString.

(** [fmt::print]: the formatted text is appended to the output. *)
Definition print (text : string) : M unit :=
  fun p => Returned tt {| stdout := stdout p ++ [text];
                          registry := registry p;
                          dataset := dataset p |}.

(** [bm::RegisterBenchmark(name, fn)->MinTime(10)->UseRealTime()]. *)
Definition RegisterBenchmark (name : string) (fn : bench_function) : M unit :=
  fun p => Returned tt {| stdout := stdout p;
                          registry := registry p ++
                            [{| bench_name := name; bench_fn := fn;
                                bench_min_time := 10; bench_real_time := true |}];
                          dataset := dataset p |}.

(** [dataset.resize(elements)]: throws when the storage cannot be had. *)
Definition dataset_resize (env : Env) (elements : Z) : M unit :=
  fun p =>
    if can_allocate env elements then
      Returned tt {| stdout := stdout p; registry := registry p;
                     dataset := vec_resize elements (dataset p) |}
    else Thrown bad_alloc_or_length_error p.

(** [std::fill(dataset.begin(), dataset.end(), 1.f)]. *)
Definition dataset_fill (x : F32.t) : M unit :=
  fun p => Returned tt {| stdout := stdout p; registry := registry p;
                          dataset := vec_fill x (dataset p) |}.

(** ** [main] (lines 37-100) *)

(** Line 83. *)
Definition opencl_case_name (kernel_name : string) (group_size : Z) (tgt : opencl_target)
  : string :=
  "opencl-" +:+ kernel_name +:+ " split by " +:+ pretty group_size +:+ " on "
    +:+ device_name tgt.

(** Lines 53-54. *)
Definition opencl_log_line (tgt : opencl_target) : string :=
  "- OpenCL: " +:+ device_name tgt +:+ " (" +:+ device_version tgt +:+ "), "
    +:+ driver_version tgt +:+ ", " +:+ language_version tgt +:+ newline.

Definition no_size_message : string :=
  "You did not feed the size of arrays, so we will use a 1GB array!" +:+ newline.

Definition no_cuda_message : string := "No CUDA capable devices found!" +:+ newline.

(** Lines 40-46: the value of [elements]. *)
Definition parse_elements (argv : list string) : M Z :=
  if Z.of_nat (length argv) <=? 1 then
    print no_size_message ;;
    mret (to_size_t (to_size_t (to_size_t (1024 * 1024) * 1024) / sizeof_float))
  else
    mret (to_size_t (atol (nth 1 argv EmptyString))).

(** Lines 57-69. *)
Definition register_cpu_cases : M unit :=
  RegisterBenchmark "cpu_baseline:f32" (automatic_of cpu_baseline_gt_float) ;;
  RegisterBenchmark "cpu_baseline:f64" (automatic_of cpu_baseline_gt_double) ;;
  RegisterBenchmark "cpu_openmp" (automatic_of cpu_openmp_t) ;;
  RegisterBenchmark "cpu_par:f32" (automatic_of cpu_par_gt_float) ;;
  RegisterBenchmark "cpu_par:f64" (automatic_of cpu_par_gt_double) ;;
  RegisterBenchmark "cpu_par_unseq:f32" (automatic_of cpu_par_unseq_gt_float) ;;
  RegisterBenchmark "cpu_par_unseq:f64" (automatic_of cpu_par_unseq_gt_double) ;;
  RegisterBenchmark "cpu_avx2:f32" (automatic_of cpu_avx2_f32_t) ;;
  RegisterBenchmark "cpu_avx2:f32kahan" (automatic_of cpu_avx2_kahan_t) ;;
  RegisterBenchmark "cpu_avx2:f64" (automatic_of cpu_avx2_f64_t) ;;
  RegisterBenchmark "cpu_avx2:f64:by32" (automatic_of cpu_avx2_f64_by32_t).

(** Lines 72-77. *)
Definition register_cuda_cases (env : Env) : M unit :=
  if negb (cuda_device_count env =? 0) then
    RegisterBenchmark "cuda_cub" (automatic_of cuda_cub_t) ;;
    RegisterBenchmark "cuda_warps" (automatic_of cuda_warps_t) ;;
    RegisterBenchmark "cuda_thrust" (automatic_of cuda_thrust_t)
  else
    print no_cuda_message.

(** Lines 80-94. Each pass of the innermost loop formats a name and creates
    a lambda with the capture default [[=]]. *)
Definition register_opencl_cases (env : Env) (ocl_targets : list opencl_target) : M unit :=
  for_each ocl_targets (fun tgt =>
    for_each (kernels_k env) (fun kernel_name =>
      for_each (opencl_wg_sizes env) (fun group_size =>
        let name := opencl_case_name kernel_name group_size tgt in
        RegisterBenchmark name
          (opencl_lambda {| cl_capture := by_copy;
                            cl_created := {| lv_tgt := tgt;
                                             lv_group_size := group_size;
                                             lv_kernel_name := kernel_name |} |})))).

(** [main], up to the hand-over to the framework (lines 96-98), which runs
    the registered cases. *)
Definition main (env : Env) (argv : list string) : M Z :=
  elements ← parse_elements argv;
  dataset_resize env elements ;;
  dataset_fill F32.one ;;
  let ocl_targets := opencl_targets env in
  for_each ocl_targets (fun tgt => print (opencl_log_line tgt)) ;;
  register_cpu_cases ;;
  register_cuda_cases env ;;
  register_opencl_cases env ocl_targets ;;
  mret 0.

(** The cases the OpenCL loop registers, taken from the registry of a run
    of [main]. *)
Definition is_opencl_case (b : Benchmark) : bool :=
  match bench_fn b with opencl_lambda _ => true | automatic_of _ => false end.

Definition is_cuda_case (b : Benchmark) : bool :=
  match bench_fn b with automatic_of a => is_cuda a | opencl_lambda _ => false end.

Definition final_process {A} (o : outcome A) : Process :=
  match o with Returned _ p | Thrown _ p => p end.

Definition run_main (env : Env) (argv : list string) : outcome Z :=
  main env argv initial_process.

(** ** Example inputs *)

(** An accumulator that answers with the length of the range it was built
    over; it stands in for a backend in the examples below. *)
Definition example_accumulator : accumulator_class :=
  {| acc_t := vector;
     acc_construct := fun v => v;
     acc_call := fun v => (F64.of_Z (vec_size v), v) |}.

Definition example_target (name : string) : opencl_target :=
  {| device_name := name;
     device_version := "OpenCL 3.0";
     driver_version := "535.54";
     language_version := "OpenCL C 1.2" |}.

Definition example_env (targets : list opencl_target) (cuda : Z) : Env :=
  {| opencl_targets := targets;
     cuda_device_count := cuda;
     kernels_k := ["reduce_simple"; "reduce_w_modulo"; "reduce_in_shared"];
     opencl_wg_sizes := [8; 32];
     can_allocate := fun n => n <=? 2 ^ 40;
     accumulator_of := fun _ => example_accumulator;
     opencl_t := fun _ _ _ => example_accumulator |}.

Definition example_state (n thread : Z) : State :=
  {| max_iterations := n; thread_index := thread; counters := ∅ |}.


(** The dataset [main] builds for a given element count (lines 47-48). *)
Definition dataset_of_size (elements : Z) : vector :=
  vec_fill F32.one (vec_resize elements vec_empty).

(** ** Vocabulary of the statements *)

(** The glossary's relative error: [|expected - observed| / expected]. *)
Definition relative_error (expected observed : F64.t) : F64.t :=
  F64.div (F64.abs (F64.sub expected observed)) expected.

(** The integer a published counter denotes. *)
Definition counter_value (state : State) (key : string) : option Z :=
  match counters state !! key with
  | Some c => F64.to_Z (value c)
  | None => None
  end.

Definition metric_names : gset string := {[ "adds/s"; "bytes/s"; "error,%" ]}.

(** ** What a run of [main] leaves behind, as lists

    The registry, the output and the element count of a run written out as
    plain lists and values; [main_returns] and [parse_elements_value] below
    prove that [main] produces exactly these. *)

(** The entry [RegisterBenchmark] appends. *)
Definition make_case (name : string) (fn : bench_function) : Benchmark :=
  {| bench_name := name; bench_fn := fn; bench_min_time := 10; bench_real_time := true |}.

(** The cases of lines 57-69. *)
Definition cpu_cases : list Benchmark :=
  [ make_case "cpu_baseline:f32" (automatic_of cpu_baseline_gt_float);
    make_case "cpu_baseline:f64" (automatic_of cpu_baseline_gt_double);
    make_case "cpu_openmp" (automatic_of cpu_openmp_t);
    make_case "cpu_par:f32" (automatic_of cpu_par_gt_float);
    make_case "cpu_par:f64" (automatic_of cpu_par_gt_double);
    make_case "cpu_par_unseq:f32" (automatic_of cpu_par_unseq_gt_float);
    make_case "cpu_par_unseq:f64" (automatic_of cpu_par_unseq_gt_double);
    make_case "cpu_avx2:f32" (automatic_of cpu_avx2_f32_t);
    make_case "cpu_avx2:f32kahan" (automatic_of cpu_avx2_kahan_t);
    make_case "cpu_avx2:f64" (automatic_of cpu_avx2_f64_t);
    make_case "cpu_avx2:f64:by32" (automatic_of cpu_avx2_f64_by32_t) ].

(** The cases of lines 73-75, when there is a CUDA device. *)
Definition cuda_cases (env : Env) : list Benchmark :=
  if cuda_device_count env =? 0 then []
  else [ make_case "cuda_cub" (automatic_of cuda_cub_t);
         make_case "cuda_warps" (automatic_of cuda_warps_t);
         make_case "cuda_thrust" (automatic_of cuda_thrust_t) ].

(** The case one pass of the innermost OpenCL loop registers. *)
Definition opencl_case_of (tgt : opencl_target) (kernel_name : string) (group_size : Z)
  : Benchmark :=
  make_case (opencl_case_name kernel_name group_size tgt)
    (opencl_lambda {| cl_capture := by_copy;
                      cl_created := {| lv_tgt := tgt;
                                       lv_group_size := group_size;
                                       lv_kernel_name := kernel_name |} |}).

(** One case per target, kernel and work-group size, in the order of the
    three loops. *)
Definition opencl_cases (env : Env) : list Benchmark :=
  flat_map (fun tgt =>
    flat_map (fun kernel_name =>
      map (fun group_size => opencl_case_of tgt kernel_name group_size)
          (opencl_wg_sizes env))
      (kernels_k env))
    (opencl_targets env).

(** [argc <= 1]. *)
Definition argument_absent (argv : list string) : bool := Z.of_nat (length argv) <=? 1.

(** The value of [elements] after lines 40-46. *)
Definition elements_of (argv : list string) : Z :=
  if argument_absent argv then 268435456
  else to_size_t (atol (nth 1 argv EmptyString)).

(** The lines printed by lines 42, 53 and 77. *)
Definition main_stdout (env : Env) (argv : list string) : list string :=
  (if argument_absent argv then [no_size_message] else [])
  ++ map opencl_log_line (opencl_targets env)
  ++ (if cuda_device_count env =? 0 then [no_cuda_message] else []).

(** The registry after line 94. *)
Definition main_registry (env : Env) : list Benchmark :=
  cpu_cases ++ cuda_cases env ++ opencl_cases env.

(** A process after more output and more registrations. *)
Definition extend (out : list string) (cases : list Benchmark) (p : Process) : Process :=
  {| stdout := stdout p ++ out; registry := registry p ++ cases; dataset := dataset p |}.

(** [part] occurs in [whole]. *)
Definition contains (part whole : string) : Prop :=
  exists before after : string, whole = before +:+ part +:+ after.

(** No character of [s] is a space. *)
Fixpoint no_space (s : string) : Prop :=
  match s with
  | EmptyString => True
  | String c s' => c <> " "%char /\ no_space s'
  end.

(** The names of the OpenCL cases, in the order of the three loops. *)
Definition opencl_names (env : Env) : list string :=
  flat_map (fun tgt =>
    flat_map (fun kernel_name =>
      map (fun group_size => opencl_case_name kernel_name group_size tgt)
          (opencl_wg_sizes env))
      (kernels_k env))
    (opencl_targets env).

(** The name of a case and the loop variables its lambda sees when it runs
    while the loop variables of [main] hold [current]. *)
Definition case_bindings (current : loop_vars) (b : Benchmark) : option (string * loop_vars) :=
  match bench_fn b with
  | opencl_lambda c => Some (bench_name b, closure_vars current c)
  | automatic_of _ => None
  end.

(** ** Vocabulary of the further properties *)

(** The sign of a value that is not a NaN: [Some true] when its sign bit is
    set. [spec_float] has a single NaN, without a sign, and IEEE 754 leaves
    the sign of a NaN that an operation produces open (on x86 the quotient
    [0.0 / 0.0] is a NaN with the sign bit set); of a NaN nothing is said. *)
Definition sign_of (x : F64.t) : option bool :=
  match x with
  | S754_zero s | S754_infinity s | S754_finite s _ _ => Some s
  | S754_nan => None
  end.

(** [x] is a NaN, or +0, a positive number or +infinity. *)
Definition nan_or_unsigned (x : F64.t) : Prop :=
  x = S754_nan \/ sign_of x = Some false.

(** [s] begins with [prefix]. *)
Definition starts_with (prefix s : string) : Prop :=
  exists rest : string, s = prefix +:+ rest.

(** The environment with another list of discovered OpenCL targets. *)
Definition with_targets (env : Env) (targets : list opencl_target) : Env :=
  {| opencl_targets := targets;
     cuda_device_count := cuda_device_count env;
     kernels_k := kernels_k env;
     opencl_wg_sizes := opencl_wg_sizes env;
     can_allocate := can_allocate env;
     accumulator_of := accumulator_of env;
     opencl_t := opencl_t env |}.

(** The OpenCL cases of one target: one per kernel and work-group size. *)
Definition opencl_cases_of_target (env : Env) (tgt : opencl_target) : list Benchmark :=
  flat_map (fun kernel_name =>
    map (fun group_size => opencl_case_of tgt kernel_name group_size)
        (opencl_wg_sizes env))
    (kernels_k env).

(** The value and flags of a published counter. *)
Definition published (state : State) (key : string) : option Counter :=
  counters state !! key.

(** An accumulator that answers with a negative sum, for an example. *)
Definition negative_accumulator : accumulator_class :=
  {| acc_t := unit;
     acc_construct := fun _ => tt;
     acc_call := fun _ => (F64.of_Z (-7), tt) |}.

(** An accumulator that answers with the same sum at every call. *)
Definition constant_accumulator (v : F64.t) : accumulator_class :=
  {| acc_t := unit;
     acc_construct := fun _ => tt;
     acc_call := fun _ => (v, tt) |}.

(** An accumulator whose sums grow by one from call to call, for an example. *)
Definition counting_accumulator : accumulator_class :=
  {| acc_t := Z;
     acc_construct := fun _ => 0;
     acc_call := fun k => (F64.of_Z (k + 1), k + 1) |}.

(** * Proofs *)

(** ** Exactness of small integers in binary64 *)

Section RoundingFacts.

Lemma iter_pos_nat {A} (f : A -> A) (p : positive) (x : A) :
  SpecFloat.iter_pos f p x = Nat.iter (Pos.to_nat p) f x.
Proof.
  revert x; induction p as [p IH|p IH|]; intros x.
  - change (SpecFloat.iter_pos f p~1 x)
      with (SpecFloat.iter_pos f p (SpecFloat.iter_pos f p (f x))).
    rewrite !IH, Pos2Nat.inj_xI, <- Nat.iter_add, <- Nat.iter_succ_r.
    f_equal; lia.
  - change (SpecFloat.iter_pos f p~0 x)
      with (SpecFloat.iter_pos f p (SpecFloat.iter_pos f p x)).
    rewrite !IH, Pos2Nat.inj_xO, <- Nat.iter_add.
    f_equal; lia.
  - reflexivity.
Qed.

Lemma shl_nat_value (n : nat) (m : positive) :
  Z.pos (Nat.iter n xO m) = Z.pos m * 2 ^ Z.of_nat n.
Proof.
  induction n as [|n IH].
  - simpl; lia.
  - rewrite Nat2Z.inj_succ, Z.pow_succ_r by lia.
    simpl Nat.iter. rewrite Pos2Z.inj_xO, IH. ring.
Qed.

Lemma shl_nat_digits (n : nat) (m : positive) :
  Z.pos (digits2_pos (Nat.iter n xO m)) = Z.pos (digits2_pos m) + Z.of_nat n.
Proof.
  induction n as [|n IH].
  - simpl; lia.
  - simpl Nat.iter. simpl digits2_pos. rewrite Pos2Z.inj_succ, IH. lia.
Qed.

Lemma shr_nat_exact (n : nat) (m : positive) :
  Nat.iter n shr_1 (Build_shr_record (Z.pos (Nat.iter n xO m)) false false)
  = Build_shr_record (Z.pos m) false false.
Proof.
  induction n as [|n IH]; [reflexivity|].
  rewrite Nat.iter_succ_r. simpl Nat.iter at 2. simpl shr_1. exact IH.
Qed.

Lemma digits2_pos_size (m : positive) : digits2_pos m = Pos.size m.
Proof. induction m; simpl; congruence. Qed.

Lemma digits2_pos_bound (m : positive) (k : Z) :
  0 <= k -> Z.pos m < 2 ^ k -> Z.pos (digits2_pos m) <= k.
Proof.
  intros Hk Hm. rewrite digits2_pos_size.
  destruct (Z_le_gt_dec (Z.pos (Pos.size m)) k) as [|Hgt]; [assumption|exfalso].
  pose proof (Pos.size_le m) as Hle.
  apply Pos2Z.pos_le_pos in Hle. rewrite Pos2Z.inj_pow in Hle.
  assert (2 ^ Z.succ k <= 2 ^ Z.pos (Pos.size m)) as Hpow
    by (apply Z.pow_le_mono_r; lia).
  rewrite Z.pow_succ_r in Hpow by lia. lia.
Qed.

(** Rounding a mantissa that carries [n] trailing zero bits beyond a
    representable one drops exactly those bits. *)
Lemma binary_round_aux_shifted (prec emax : Z) (s : bool) (m : positive) (e : Z) (n : nat) :
  bounded prec emax m (e + Z.of_nat n) = true ->
  binary_round_aux prec emax s (Z.pos (Nat.iter n xO m)) e loc_Exact
  = S754_finite s m (e + Z.of_nat n).
Proof.
  intros Hb. unfold bounded in Hb. apply andb_prop in Hb as [Hc Hle].
  unfold canonical_mantissa in Hc. apply Z.eqb_eq in Hc.
  unfold binary_round_aux, shr_fexp.
  change (Zdigits2 (Z.pos (Nat.iter n xO m)))
    with (Z.pos (digits2_pos (Nat.iter n xO m))).
  rewrite shl_nat_digits.
  replace (Z.pos (digits2_pos m) + Z.of_nat n + e)
    with (Z.pos (digits2_pos m) + (e + Z.of_nat n)) by lia.
  rewrite Hc.
  replace (e + Z.of_nat n - e) with (Z.of_nat n) by lia.
  assert (shr (shr_record_of_loc (Z.pos (Nat.iter n xO m)) loc_Exact) e (Z.of_nat n)
          = (Build_shr_record (Z.pos m) false false, e + Z.of_nat n)) as ->.
  { destruct n as [|n]; [simpl; f_equal; lia|].
    unfold shr. change (Z.of_nat (S n)) with (Z.pos (Pos.of_succ_nat n)).
    cbv beta iota. rewrite iter_pos_nat, SuccNat2Pos.id_succ.
    change (shr_record_of_loc (Z.pos (Nat.iter (S n) xO m)) loc_Exact)
      with (Build_shr_record (Z.pos (Nat.iter (S n) xO m)) false false).
    now rewrite shr_nat_exact. }
  change (round_nearest_even (shr_m (Build_shr_record (Z.pos m) false false))
            (loc_of_shr_record (Build_shr_record (Z.pos m) false false)))
    with (Z.pos m).
  change (Zdigits2 (Z.pos m)) with (Z.pos (digits2_pos m)).
  rewrite Hc, Z.sub_diag. simpl shr. cbv beta iota. simpl shr_m.
  now rewrite Hle.
Qed.

Lemma binary_round_aux_canonical (prec emax : Z) (s : bool) (m : positive) (e : Z) :
  bounded prec emax m e = true ->
  binary_round_aux prec emax s (Z.pos m) e loc_Exact = S754_finite s m e.
Proof.
  intros Hb. pose proof (binary_round_aux_shifted prec emax s m e 0) as H.
  simpl in H. rewrite Z.add_0_r in H. now apply H.
Qed.

End RoundingFacts.

Section Binary64Facts.

Lemma F64_fexp (x : Z) : fexp F64.prec F64.emax x = Z.max (x - 53) (-1074).
Proof. reflexivity. Qed.

(** Multiplying a representable value by [1.0] returns it unchanged. *)
Lemma F64_mul_one (s : bool) (m : positive) (e : Z) :
  bounded F64.prec F64.emax m e = true ->
  F64.mul (S754_finite s m e) F64.one = S754_finite s m e.
Proof.
  intros Hb. unfold F64.mul, F64.one, F64.of_Z.
  change (binary_normalize F64.prec F64.emax 1 0 false)
    with (S754_finite false 4503599627370496 (-52)).
  unfold SFmul. rewrite xorb_false_r, Pos.mul_comm.
  change (4503599627370496 * m)%positive with (Nat.iter 52 xO m).
  rewrite binary_round_aux_shifted.
  - f_equal. lia.
  - replace (e + -52 + Z.of_nat 52) with e by lia. exact Hb.
Qed.

(** Integers below 2^53 convert to [double] without rounding. *)
Lemma F64_of_Z_small (p : positive) :
  Z.pos p < 2 ^ 53 ->
  exists (m : positive) (k : nat),
    F64.of_Z (Z.pos p) = S754_finite false m (- Z.of_nat k)
    /\ bounded F64.prec F64.emax m (- Z.of_nat k) = true
    /\ Z.pos m = Z.pos p * 2 ^ Z.of_nat k.
Proof.
  intros Hp.
  pose proof (digits2_pos_bound p 53 ltac:(lia) Hp) as Hd.
  unfold F64.of_Z, binary_normalize, binary_round.
  rewrite F64_fexp, Z.add_0_r.
  rewrite Z.max_l by lia.
  unfold shl_align.
  destruct (Z.pos (digits2_pos p) - 53 - 0) as [|q|q] eqn:Hq; [|lia|].
  - exists p, 0%nat. change (- Z.of_nat 0) with 0.
    assert (bounded F64.prec F64.emax p 0 = true) as Hb.
    { unfold bounded, canonical_mantissa. rewrite F64_fexp.
      apply andb_true_intro; split; [apply Z.eqb_eq; lia | reflexivity]. }
    rewrite binary_round_aux_canonical by exact Hb.
    repeat split; [exact Hb | lia].
  - exists (Nat.iter (Pos.to_nat q) xO p), (Pos.to_nat q).
    rewrite Pos2Nat.inj_iter.
    assert (Z.pos (digits2_pos p) - 53 = - Z.of_nat (Pos.to_nat q)) as He by lia.
    rewrite He.
    assert (bounded F64.prec F64.emax (Nat.iter (Pos.to_nat q) xO p)
              (- Z.of_nat (Pos.to_nat q)) = true) as Hb.
    { unfold bounded, canonical_mantissa. rewrite F64_fexp, shl_nat_digits.
      apply andb_true_intro; split; [apply Z.eqb_eq; lia | apply Z.leb_le].
      unfold F64.emax, F64.prec. lia. }
    rewrite binary_round_aux_canonical by exact Hb.
    repeat split; [exact Hb | apply shl_nat_value].
Qed.

Lemma F64_to_Z_scaled (s : bool) (m : positive) (k : nat) (n : Z) :
  (if s then Z.neg m else Z.pos m) = n * 2 ^ Z.of_nat k ->
  F64.to_Z (S754_finite s m (- Z.of_nat k)) = Some n.
Proof.
  intros Hv. unfold F64.to_Z. rewrite Hv.
  assert (0 < 2 ^ Z.of_nat k) by (apply Z.pow_pos_nonneg; lia).
  destruct (0 <=? - Z.of_nat k) eqn:Hk.
  - apply Z.leb_le in Hk. assert (Z.of_nat k = 0) as -> by lia.
    f_equal. simpl. lia.
  - rewrite Z.opp_involutive, Z.mod_mul by lia. simpl.
    now rewrite Z.div_mul by lia.
Qed.

(** Every integer from 0 to 2^53 is represented exactly, also after the
    multiplication by [1.0]. *)
Lemma F64_of_Z_exact (n : Z) :
  0 <= n <= 2 ^ 53 ->
  F64.mul (F64.of_Z n) F64.one = F64.of_Z n /\ F64.to_Z (F64.of_Z n) = Some n.
Proof.
  intros Hn.
  destruct (Z.eq_dec n 0) as [->|Hz]; [split; reflexivity|].
  destruct (Z.eq_dec n (2 ^ 53)) as [->|Hmax]; [split; vm_compute; reflexivity|].
  destruct n as [|p|p]; try lia.
  destruct (F64_of_Z_small p ltac:(lia)) as (m & k & -> & Hb & Hv).
  split; [now apply F64_mul_one | now apply F64_to_Z_scaled].
Qed.

End Binary64Facts.

(** ** Properties of the timed loop *)

Lemma last_cons_default {X} (l : list X) (x d : X) :
  List.last (x :: l) d = List.last l x.
Proof.
  revert x d; induction l as [|y l IH]; intros x d; [reflexivity|].
  change (List.last (x :: y :: l) d) with (List.last (y :: l) d).
  now rewrite (IH y d), (IH y x).
Qed.

Section GenericFacts.

Variable dataset : vector.
Context {A : Type}.
Variable call : A -> F64.t * A.

Lemma loop_body_error (acc : A) :
  let '(sum, error, _) := loop_body dataset call acc in
  error = relative_error (sum_expected dataset) sum.
Proof. unfold loop_body. destruct (call acc) as [sum acc']. reflexivity. Qed.

Lemma loop_trace_length (n : nat) (acc : A) :
  length (loop_trace dataset call n acc) = n.
Proof.
  revert acc; induction n as [|n IH]; intros acc; simpl; [reflexivity|].
  destruct (loop_body dataset call acc) as [[sum error] acc']. simpl.
  now rewrite IH.
Qed.

Lemma loop_trace_relative_error (n : nat) (acc : A) :
  Forall (fun se => snd se = relative_error (sum_expected dataset) (fst se))
         (loop_trace dataset call n acc).
Proof.
  revert acc; induction n as [|n IH]; intros acc; simpl; [constructor|].
  pose proof (loop_body_error acc) as Hb.
  destruct (loop_body dataset call acc) as [[sum error] acc'].
  constructor; [exact Hb | apply IH].
Qed.

(** The locals after the loop are those of the last pass. *)
Lemma timed_loop_last (n : nat) (sum error : F64.t) (acc : A) :
  let '(sum', error', _) := timed_loop dataset call n sum error acc in
  (sum', error') = List.last (loop_trace dataset call n acc) (sum, error).
Proof.
  revert sum error acc; induction n as [|n IH]; intros sum error acc; [reflexivity|].
  simpl timed_loop. simpl loop_trace.
  destruct (loop_body dataset call acc) as [[sum1 error1] acc1].
  specialize (IH sum1 error1 acc1).
  destruct (timed_loop dataset call n sum1 error1 acc1) as [[sum' error'] acc'].
  rewrite IH. symmetry. apply last_cons_default.
Qed.

Lemma generic_error (state : State) (acc : A) :
  1 <= max_iterations state ->
  m_error (generic dataset call state acc)
  = relative_error (sum_expected dataset) (m_sum (generic dataset call state acc)).
Proof.
  intros Hn. unfold generic.
  pose proof (timed_loop_last (Z.to_nat (max_iterations state))
                (F64.of_Z 0) (F64.of_Z 0) acc) as Hl.
  pose proof (loop_trace_relative_error (Z.to_nat (max_iterations state)) acc) as Hf.
  pose proof (loop_trace_length (Z.to_nat (max_iterations state)) acc) as Hlen.
  destruct (timed_loop dataset call (Z.to_nat (max_iterations state))
              (F64.of_Z 0) (F64.of_Z 0) acc) as [[sum error] acc'].
  simpl.
  destruct (loop_trace dataset call (Z.to_nat (max_iterations state)) acc)
    as [|x l] eqn:Ht.
  - simpl in Hlen. lia.
  - assert (In (sum, error) (x :: l)) as Hin.
    { rewrite Hl. destruct (exists_last (l := x :: l) ltac:(discriminate))
        as (l' & y & Hy).
      rewrite Hy, last_last. apply in_or_app. right. now left. }
    rewrite List.Forall_forall in Hf. exact (Hf _ Hin).
Qed.

End GenericFacts.

(** ** The expected sum and the error metric *)


Lemma run_case_error (env : Env) (dataset : vector) (current : loop_vars)
    (b : Benchmark) (state : State) :
  1 <= max_iterations state ->
  r_error (run_case env dataset current b state)
  = relative_error (sum_expected dataset) (r_sum (run_case env dataset current b state)).
Proof.
  intros Hn. unfold run_case.
  destruct (bench_fn b) as [a|c]; simpl; now apply generic_error.
Qed.



(** The bound comes from the format of [double]: 2^53 + 1 is the first count
    it does not hold, and the conversion of line 15 would round it to 2^53. *)
Lemma expected_sum_rounds_above_2_53 :
  vec_size (dataset_of_size (2 ^ 53 + 1)) = 9007199254740993
  /\ F64.to_Z (sum_expected (dataset_of_size (2 ^ 53 + 1))) = Some 9007199254740992
  /\ F64.to_Z (sum_expected (dataset_of_size (2 ^ 53 + 1)))
     <> Some (vec_size (dataset_of_size (2 ^ 53 + 1))).
Proof. repeat split. vm_compute. discriminate. Qed.

(** ** Publication of the metrics *)

Section PublishFacts.

Variable dataset : vector.

Lemma publish_lead (state : State) (error : F64.t) :
  thread_index state = 0 ->
  counters (publish dataset state error)
  = <["error,%" := {| value := F64.mul error F64.hundred; flags := kDefaults |}]>
      (<["bytes/s" :=
           {| value := F64.of_Z (to_size_t
                         (to_size_t (iterations state * vec_size dataset) * sizeof_float));
              flags := kIsRate |}]>
         (<["adds/s" :=
              {| value := F64.of_Z (to_size_t (iterations state * vec_size dataset));
                 flags := kIsRate |}]>
            (counters state))).
Proof. intros H0. unfold publish. rewrite H0. reflexivity. Qed.

Lemma publish_other (state : State) (error : F64.t) :
  thread_index state <> 0 -> publish dataset state error = state.
Proof.
  intros Hne. unfold publish.
  destruct (thread_index state =? 0) eqn:E; [|reflexivity].
  apply Z.eqb_eq in E. contradiction.
Qed.

Lemma generic_state {A} (call : A -> F64.t * A) (state : State) (acc : A) :
  m_state (generic dataset call state acc)
  = publish dataset state (m_error (generic dataset call state acc)).
Proof.
  unfold generic.
  destruct (timed_loop dataset call (Z.to_nat (max_iterations state))
              (F64.of_Z 0) (F64.of_Z 0) acc) as [[sum error] acc'].
  reflexivity.
Qed.

End PublishFacts.

Lemma to_size_t_small (z : Z) : 0 <= z < 2 ^ 64 -> to_size_t z = z.
Proof. intros Hz. unfold to_size_t, size_t_modulus. now apply Z.mod_small. Qed.

Lemma generic_counters_lead
    (dataset : vector) (A : Type) (call : A -> F64.t * A) (state : State) (acc : A) :
  thread_index state = 0 ->
  counters (m_state (generic dataset call state acc))
  = <["error,%" := {| value := F64.mul (m_error (generic dataset call state acc)) F64.hundred;
                      flags := kDefaults |}]>
      (<["bytes/s" :=
           {| value := F64.of_Z (to_size_t
                         (to_size_t (iterations state * vec_size dataset) * sizeof_float));
              flags := kIsRate |}]>
         (<["adds/s" :=
              {| value := F64.of_Z (to_size_t (iterations state * vec_size dataset));
                 flags := kIsRate |}]>
            (counters state))).
Proof. intros H0. rewrite generic_state. now apply publish_lead. Qed.

Lemma generic_counters_dom
    (dataset : vector) (A : Type) (call : A -> F64.t * A) (state : State) (acc : A) :
  thread_index state = 0 ->
  dom (counters (m_state (generic dataset call state acc)))
  = metric_names ∪ dom (counters state).
Proof.
  intros H0. rewrite generic_counters_lead by exact H0.
  rewrite !dom_insert_L. unfold metric_names.
  apply set_eq. intros key. rewrite !elem_of_union, !elem_of_singleton. tauto.
Qed.

(** C3. Each run of a case publishes exactly three metrics. The lead
    context (thread index 0) writes the three counters "adds/s", "bytes/s"
    and "error,%" and no other; any other measuring context of the same case
    writes none, so the case has these three. "adds/s" holds iterations times
    dataset size, computed in [size_t] and converted to [double], flagged as
    a rate; "bytes/s" holds that count times [sizeof(float)], flagged as a
    rate; "error,%" holds the final error times 100. The two counts are the
    exact products for every run a machine can make: a run would have to
    read more than 2^53 bytes (8 PiB) before either the conversion or
    [size_t] lost anything. *)
Theorem lead_context_publishes_three_metrics
    (dataset : vector) (A : Type) (call : A -> F64.t * A) (state : State) (acc : A) :
  let m := generic dataset call state acc in
  let total_ops := iterations state * vec_size dataset in
  (thread_index state = 0 ->
     counters (m_state m)
     = <["error,%" := {| value := F64.mul (m_error m) F64.hundred; flags := kDefaults |}]>
         (<["bytes/s" := {| value := F64.of_Z (to_size_t (to_size_t total_ops * sizeof_float));
                            flags := kIsRate |}]>
            (<["adds/s" := {| value := F64.of_Z (to_size_t total_ops); flags := kIsRate |}]>
               (counters state)))
     /\ dom (counters (m_state m)) = metric_names ∪ dom (counters state)
     /\ (0 <= total_ops -> total_ops * sizeof_float <= 2 ^ 53 ->
         counter_value (m_state m) "adds/s" = Some total_ops
         /\ counter_value (m_state m) "bytes/s" = Some (total_ops * sizeof_float)
         /\ counters (m_state m) !! "adds/s"
            = Some {| value := F64.of_Z total_ops; flags := kIsRate |}
         /\ counters (m_state m) !! "bytes/s"
            = Some {| value := F64.of_Z (total_ops * sizeof_float); flags := kIsRate |}
         /\ counters (m_state m) !! "error,%"
            = Some {| value := F64.mul (m_error m) F64.hundred; flags := kDefaults |}))
  /\ (thread_index state <> 0 -> m_state m = state).
Proof.
  intros m total_ops. split.
  - intros H0.
    pose proof (generic_counters_lead dataset A call state acc H0) as Hc.
    fold m in Hc. fold total_ops in Hc.
    split; [exact Hc|]. split.
    + now apply generic_counters_dom.
    + intros Hpos Hle. unfold sizeof_float in *.
      assert (to_size_t total_ops = total_ops) as Ht by (apply to_size_t_small; lia).
      assert (to_size_t (total_ops * 4) = total_ops * 4) as Hb by (apply to_size_t_small; lia).
      unfold counter_value. rewrite Hc, Ht, Hb.
      rewrite lookup_insert_eq.
      rewrite (lookup_insert_ne _ "error,%" "bytes/s") by discriminate.
      rewrite lookup_insert_eq.
      rewrite (lookup_insert_ne _ "error,%" "adds/s") by discriminate.
      rewrite (lookup_insert_ne _ "bytes/s" "adds/s") by discriminate.
      rewrite lookup_insert_eq. simpl.
      split; [apply F64_of_Z_exact; lia|].
      split; [apply F64_of_Z_exact; lia|].
      repeat split.
  - intros Hne. subst m. rewrite generic_state. now apply publish_other.
Qed.

Lemma lead_context_publishes_three_metrics_witness :
  let dataset := dataset_of_size 1024 in
  let state := example_state 3 0 in
  let other := example_state 3 1 in
  let m := generic dataset (acc_call example_accumulator) state dataset in
  let m' := generic dataset (acc_call example_accumulator) other dataset in
  thread_index state = 0
  /\ dom (counters (m_state m)) = metric_names ∪ dom (counters state)
  /\ counter_value (m_state m) "adds/s" = Some 3072
  /\ counter_value (m_state m) "bytes/s" = Some 12288
  /\ counters (m_state m) !! "error,%"
     = Some {| value := S754_zero false; flags := kDefaults |}
  /\ thread_index other <> 0
  /\ m_state m' = other.
Proof.
  intros dataset state other m m'.
  assert (thread_index state = 0) as H0 by reflexivity.
  assert (thread_index other <> 0) as H1 by (simpl; lia).
  destruct (lead_context_publishes_three_metrics dataset _
              (acc_call example_accumulator) state dataset) as [Hlead _].
  destruct (lead_context_publishes_three_metrics dataset _
              (acc_call example_accumulator) other dataset) as [_ Hother].
  destruct (Hlead H0) as (_ & Hdom & Hexact).
  destruct Hexact as (Ha & Hb & _ & _ & He);
    [unfold iterations, sizeof_float; simpl; lia
    |unfold iterations, sizeof_float; simpl; lia|].
  split; [exact H0|]. split; [exact Hdom|]. split; [exact Ha|]. split; [exact Hb|].
  split; [exact He|]. split; [exact H1|]. exact (Hother H1).
Defined.

(** C6. The three counters are written when the thread index is 0, and in
    that case only; any other measuring thread hands the state back as it got
    it. On a state that does not hold the three names yet, a name is present
    afterwards if and only if the thread index is 0. *)
Theorem only_the_lead_context_publishes
    (dataset : vector) (A : Type) (call : A -> F64.t * A) (state : State) (acc : A) :
  let m := generic dataset call state acc in
  (thread_index state = 0 ->
     forall key, key ∈ metric_names -> is_Some (counters (m_state m) !! key))
  /\ (thread_index state <> 0 -> m_state m = state)
  /\ (forall key, key ∈ metric_names -> counters state !! key = None ->
        (is_Some (counters (m_state m) !! key) <-> thread_index state = 0)).
Proof.
  intros m.
  assert (thread_index state = 0 ->
          forall key, key ∈ metric_names -> is_Some (counters (m_state m) !! key)) as Hlead.
  { intros H0 key Hkey. apply elem_of_dom. subst m.
    rewrite generic_counters_dom by exact H0. apply elem_of_union_l. exact Hkey. }
  assert (thread_index state <> 0 -> m_state m = state) as Hother.
  { intros Hne. subst m. rewrite generic_state. now apply publish_other. }
  split; [exact Hlead|]. split; [exact Hother|].
  intros key Hkey Hnone. split.
  - intros Hsome. destruct (Z.eq_dec (thread_index state) 0) as [|Hne]; [assumption|].
    rewrite (Hother Hne), Hnone in Hsome. now destruct Hsome.
  - intros H0. now apply Hlead.
Qed.

(** ** What a run of [main] leaves behind *)

Lemma extend_nil (p : Process) : extend [] [] p = p.
Proof. destruct p; unfold extend; simpl. now rewrite !app_nil_r. Qed.

Lemma extend_extend (o1 o2 : list string) (c1 c2 : list Benchmark) (p : Process) :
  extend o2 c2 (extend o1 c1 p) = extend (o1 ++ o2) (c1 ++ c2) p.
Proof. unfold extend; simpl. now rewrite !app_assoc. Qed.

Lemma print_extend (text : string) (p : Process) :
  print text p = Returned tt (extend [text] [] p).
Proof. unfold print, extend. now rewrite app_nil_r. Qed.

Lemma RegisterBenchmark_extend (name : string) (fn : bench_function) (p : Process) :
  RegisterBenchmark name fn p = Returned tt (extend [] [make_case name fn] p).
Proof. unfold RegisterBenchmark, extend, make_case. now rewrite app_nil_r. Qed.

Lemma bind_returned {X Y} (m : M X) (k : X -> M Y) (p p' : Process) (x : X) :
  m p = Returned x p' -> (m ≫= k) p = k x p'.
Proof. intros H. unfold mbind, M_bind. now rewrite H. Qed.

Lemma bind_thrown {X Y} (m : M X) (k : X -> M Y) (p p' : Process) (e : exception) :
  m p = Thrown e p' -> (m ≫= k) p = Thrown e p'.
Proof. intros H. unfold mbind, M_bind. now rewrite H. Qed.

Lemma for_each_extend {X} (l : list X) (body : X -> M unit)
    (out : X -> list string) (cases : X -> list Benchmark) :
  (forall x p, body x p = Returned tt (extend (out x) (cases x) p)) ->
  forall p, for_each l body p = Returned tt (extend (flat_map out l) (flat_map cases l) p).
Proof.
  intros Hbody. induction l as [|x l IH]; intros p; simpl.
  - now rewrite extend_nil.
  - rewrite (bind_returned _ _ _ _ _ (Hbody x p)), IH, extend_extend. reflexivity.
Qed.

Lemma flat_map_nothing {X Y} (l : list X) : flat_map (fun _ : X => @nil Y) l = [].
Proof. induction l; simpl; auto. Qed.

Lemma flat_map_single {X Y} (f : X -> Y) (l : list X) :
  flat_map (fun x => [f x]) l = map f l.
Proof. induction l; simpl; congruence. Qed.

Lemma for_each_register {X} (l : list X) (body : X -> M unit) (cases : X -> list Benchmark) :
  (forall x p, body x p = Returned tt (extend [] (cases x) p)) ->
  forall p, for_each l body p = Returned tt (extend [] (flat_map cases l) p).
Proof.
  intros Hbody p.
  rewrite (for_each_extend l body (fun _ => []) cases Hbody), flat_map_nothing.
  reflexivity.
Qed.

Lemma for_each_print {X} (l : list X) (text : X -> string) (p : Process) :
  for_each l (fun x => print (text x)) p = Returned tt (extend (map text l) [] p).
Proof.
  rewrite (for_each_extend l _ (fun x => [text x]) (fun _ => [])
             (fun x q => print_extend (text x) q)).
  now rewrite flat_map_nothing, flat_map_single.
Qed.

Lemma register_cpu_cases_extend (p : Process) :
  register_cpu_cases p = Returned tt (extend [] cpu_cases p).
Proof.
  unfold register_cpu_cases.
  repeat (erewrite bind_returned by apply RegisterBenchmark_extend).
  etransitivity; [apply RegisterBenchmark_extend|].
  rewrite !extend_extend. reflexivity.
Qed.

Lemma register_cuda_cases_extend (env : Env) (p : Process) :
  register_cuda_cases env p
  = Returned tt (extend (if cuda_device_count env =? 0 then [no_cuda_message] else [])
                        (cuda_cases env) p).
Proof.
  unfold register_cuda_cases, cuda_cases.
  destruct (cuda_device_count env =? 0); cbv beta iota delta [negb].
  - apply print_extend.
  - repeat (erewrite bind_returned by apply RegisterBenchmark_extend).
    etransitivity; [apply RegisterBenchmark_extend|].
    rewrite !extend_extend. reflexivity.
Qed.

Lemma register_opencl_cases_extend (env : Env) (p : Process) :
  register_opencl_cases env (opencl_targets env) p
  = Returned tt (extend [] (opencl_cases env) p).
Proof.
  unfold register_opencl_cases, opencl_cases.
  apply for_each_register. intros tgt p1.
  apply for_each_register. intros kernel_name p2.
  rewrite <- flat_map_single.
  apply for_each_register. intros group_size p3.
  apply RegisterBenchmark_extend.
Qed.

Lemma parse_elements_value (argv : list string) (p : Process) :
  parse_elements argv p
  = Returned (elements_of argv)
      (extend (if argument_absent argv then [no_size_message] else []) [] p).
Proof.
  unfold parse_elements, elements_of, argument_absent.
  destruct (Z.of_nat (length argv) <=? 1).
  - erewrite bind_returned by apply print_extend. reflexivity.
  - now rewrite extend_nil.
Qed.

(** When the storage can be had, [main] returns 0, and this is the output,
    the registry and the dataset it leaves. *)
Lemma main_returns (env : Env) (argv : list string) :
  can_allocate env (elements_of argv) = true ->
  run_main env argv
  = Returned 0 {| stdout := main_stdout env argv;
                  registry := main_registry env;
                  dataset := dataset_of_size (elements_of argv) |}.
Proof.
  intros Halloc. unfold run_main, main.
  erewrite bind_returned by apply parse_elements_value.
  unfold dataset_resize, dataset_fill, mbind at 1 2, M_bind at 1 2. rewrite Halloc.
  erewrite bind_returned by apply for_each_print.
  erewrite bind_returned by apply register_cpu_cases_extend.
  erewrite bind_returned by apply register_cuda_cases_extend.
  erewrite bind_returned by apply register_opencl_cases_extend.
  unfold mret, M_ret, extend, main_stdout, main_registry, dataset_of_size; simpl.
  rewrite !app_nil_r, <- !app_assoc. reflexivity.
Qed.

(** Otherwise [resize] throws before anything is registered. *)
Lemma main_throws (env : Env) (argv : list string) :
  can_allocate env (elements_of argv) = false ->
  run_main env argv
  = Thrown bad_alloc_or_length_error
      {| stdout := if argument_absent argv then [no_size_message] else [];
         registry := [];
         dataset := vec_empty |}.
Proof.
  intros Halloc. unfold run_main, main.
  erewrite bind_returned by apply parse_elements_value.
  unfold dataset_resize, mbind, M_bind. rewrite Halloc.
  unfold extend; simpl. reflexivity.
Qed.

(** ** Decimal text and [atol] *)

Lemma small_digit_cases (d : N) :
  (d < 10)%N ->
  d = 0%N \/ d = 1%N \/ d = 2%N \/ d = 3%N \/ d = 4%N
  \/ d = 5%N \/ d = 6%N \/ d = 7%N \/ d = 8%N \/ d = 9%N.
Proof. lia. Qed.

Lemma digit_value_pretty (d : N) :
  (d < 10)%N -> digit_value (pretty_N_char d) = Some (Z.of_N d).
Proof.
  intros Hd.
  destruct (small_digit_cases d Hd) as [->|[->|[->|[->|[->|[->|[->|[->|[->| ->]]]]]]]]];
    reflexivity.
Qed.

Lemma atol_leading_digit (d : N) (rest : string) :
  (d < 10)%N ->
  atol (String (pretty_N_char d) rest)
  = clamp_long (read_digits 0 (String (pretty_N_char d) rest)).
Proof.
  intros Hd.
  destruct (small_digit_cases d Hd) as [->|[->|[->|[->|[->|[->|[->|[->|[->| ->]]]]]]]]];
    reflexivity.
Qed.

Lemma read_digits_pretty_go (x : N) (s : string) :
  read_digits 0 (pretty_N_go x s) = read_digits (Z.of_N x) s.
Proof.
  revert s. induction (N.lt_wf_0 x) as [x _ IH]. intros s.
  destruct (N.eq_dec x 0%N) as [->|Hx]; [reflexivity|].
  rewrite pretty_N_go_step by lia.
  rewrite IH by (apply N.div_lt; lia).
  simpl read_digits. rewrite digit_value_pretty by (apply N.mod_lt; lia).
  f_equal. rewrite N2Z.inj_div, N2Z.inj_mod.
  change (Z.of_N 10) with 10.
  pose proof (Z.div_mod (Z.of_N x) 10 ltac:(lia)). lia.
Qed.

Lemma pretty_go_head (x : N) (s : string) :
  (0 < x)%N ->
  exists (d : N) (rest : string), (d < 10)%N /\ pretty_N_go x s = String (pretty_N_char d) rest.
Proof.
  revert s. induction (N.lt_wf_0 x) as [x _ IH]. intros s Hx.
  rewrite pretty_N_go_step by exact Hx.
  destruct (N.eq_dec (x / 10)%N 0%N) as [E|E].
  - rewrite E, pretty_N_go_0. exists (x mod 10)%N, s. split; [apply N.mod_lt; lia|reflexivity].
  - apply IH; [apply N.div_lt; lia | apply N.neq_0_lt_0; exact E].
Qed.

Lemma pretty_positive_go (p : positive) : pretty (Z.pos p) = pretty_N_go (N.pos p) "".
Proof. reflexivity. Qed.

Lemma pretty_negative_go (p : positive) :
  pretty (Z.neg p) = String "-" (pretty_N_go (N.pos p) "").
Proof. reflexivity. Qed.

(** [atol] reads back the decimal text of every [long]. *)
Lemma atol_pretty (n : Z) : LONG_MIN <= n <= LONG_MAX -> atol (pretty n) = n.
Proof.
  intros Hn. unfold LONG_MIN, LONG_MAX in Hn.
  destruct n as [|p|p].
  - reflexivity.
  - rewrite pretty_positive_go.
    destruct (pretty_go_head (N.pos p) "" ltac:(lia)) as (d & rest & Hd & Hs).
    rewrite Hs, atol_leading_digit by exact Hd.
    rewrite <- Hs, read_digits_pretty_go. simpl read_digits.
    unfold clamp_long, LONG_MIN, LONG_MAX. change (Z.of_N (N.pos p)) with (Z.pos p). lia.
  - rewrite pretty_negative_go. unfold atol.
    change (skip_spaces (String "-" (pretty_N_go (N.pos p) "")))
      with (String "-" (pretty_N_go (N.pos p) "")).
    cbv iota beta. rewrite read_digits_pretty_go. simpl read_digits.
    unfold clamp_long, LONG_MIN, LONG_MAX. change (Z.of_N (N.pos p)) with (Z.pos p). lia.
Qed.

(** ** Workload setup *)

Lemma dataset_of_size_ones (n i : Z) :
  0 <= i < n -> vec_at (dataset_of_size n) i = F32.one.
Proof.
  intros Hi. unfold dataset_of_size, vec_fill, vec_resize, vec_in_range; simpl.
  replace (0 <=? i) with true by (symmetry; apply Z.leb_le; lia).
  replace (i <? n) with true by (symmetry; apply Z.ltb_lt; lia).
  reflexivity.
Qed.

Lemma elements_of_absent (argv : list string) :
  (length argv <= 1)%nat -> elements_of argv = 268435456.
Proof.
  intros Hlen. unfold elements_of, argument_absent.
  replace (Z.of_nat (length argv) <=? 1) with true by (symmetry; apply Z.leb_le; lia).
  reflexivity.
Qed.

Lemma elements_of_present (prog arg : string) (rest : list string) :
  elements_of (prog :: arg :: rest) = to_size_t (atol arg).
Proof.
  unfold elements_of, argument_absent.
  replace (Z.of_nat (length (prog :: arg :: rest)) <=? 1) with false; [reflexivity|].
  symmetry. apply Z.leb_gt. simpl length. lia.
Qed.

(** C5. Without a positional argument the element count is
    1024^3 / sizeof(float) = 268435456, and [main] leaves a dataset of that
    many elements, each 1.0. With one, the decimal text of a count [n] is
    read back as [n], and the dataset has [n] elements, each 1.0. *)
Theorem default_element_count (env : Env) (argv : list string) :
  (length argv <= 1)%nat ->
  can_allocate env 268435456 = true ->
  1024 * 1024 * 1024 / sizeof_float = 268435456
  /\ (forall p0 : Process,
        parse_elements argv p0 = Returned 268435456 (extend [no_size_message] [] p0))
  /\ (exists p : Process,
        run_main env argv = Returned 0 p
        /\ vec_size (dataset p) = 268435456
        /\ forall i, 0 <= i < 268435456 -> vec_at (dataset p) i = F32.one)
  /\ (forall (prog : string) (n : Z) (rest : list string),
        0 <= n <= LONG_MAX -> can_allocate env n = true ->
        exists p : Process,
          run_main env (prog :: pretty n :: rest) = Returned 0 p
          /\ vec_size (dataset p) = n
          /\ forall i, 0 <= i < n -> vec_at (dataset p) i = F32.one).
Proof.
  intros Hlen Halloc. split; [reflexivity|].
  pose proof (elements_of_absent argv Hlen) as He.
  assert (argument_absent argv = true) as Habs
    by (unfold argument_absent; apply Z.leb_le; lia).
  split; [|split].
  - intros p0. now rewrite parse_elements_value, He, Habs.
  - eexists. split; [apply main_returns; now rewrite He|].
    simpl dataset. rewrite He. split; [reflexivity|].
    intros i Hi. now apply dataset_of_size_ones.
  - intros prog n rest Hn Hcan.
    assert (elements_of (prog :: pretty n :: rest) = n) as He'.
    { rewrite elements_of_present, atol_pretty by (unfold LONG_MIN, LONG_MAX in *; lia).
      apply to_size_t_small. unfold LONG_MAX in Hn. lia. }
    eexists. split; [apply main_returns; now rewrite He'|].
    simpl dataset. rewrite He'. split; [reflexivity|].
    intros i Hi. now apply dataset_of_size_ones.
Qed.

Lemma default_element_count_witness :
  let env := example_env [example_target "gpu0"] 1 in
  (length ["reduce_bench"] <= 1)%nat
  /\ can_allocate env 268435456 = true
  /\ exists p : Process,
       run_main env ["reduce_bench"] = Returned 0 p
       /\ vec_size (dataset p) = 268435456
       /\ forall i, 0 <= i < 268435456 -> vec_at (dataset p) i = F32.one.
Proof.
  intros env.
  assert (length ["reduce_bench"] <= 1)%nat as H1 by (simpl; lia).
  assert (can_allocate env 268435456 = true) as H2 by reflexivity.
  split; [exact H1|]. split; [exact H2|].
  exact (proj1 (proj2 (proj2 (default_element_count env ["reduce_bench"] H1 H2)))).
Defined.

(** C10. The decimal text of a negative [long] [n] as the positional
    argument is read by [atol] as [n] and cast to [size_t]: the element count
    is [n + 2^64], that is [n] modulo 2^64, at least 2^63; the parsing step
    returns it and throws nothing, and [main] goes on to ask [resize] for that
    many elements. *)
Theorem negative_argument_wraps
    (env : Env) (prog : string) (rest : list string) (n : Z) (p : Process) :
  LONG_MIN <= n < 0 ->
  atol (pretty n) = n
  /\ parse_elements (prog :: pretty n :: rest) p = Returned (n + 2 ^ 64) p
  /\ n + 2 ^ 64 = n mod 2 ^ 64
  /\ 2 ^ 63 <= n + 2 ^ 64 < 2 ^ 64
  /\ run_main env (prog :: pretty n :: rest)
     = if can_allocate env (n + 2 ^ 64)
       then Returned 0 {| stdout := main_stdout env (prog :: pretty n :: rest);
                          registry := main_registry env;
                          dataset := dataset_of_size (n + 2 ^ 64) |}
       else Thrown bad_alloc_or_length_error
              {| stdout := []; registry := []; dataset := vec_empty |}.
Proof.
  intros Hn. unfold LONG_MIN in Hn.
  assert (atol (pretty n) = n) as Ha
    by (apply atol_pretty; unfold LONG_MIN, LONG_MAX; lia).
  assert (n mod 2 ^ 64 = n + 2 ^ 64) as Hmod.
  { symmetry. apply Z.mod_unique with (q := -1); lia. }
  assert (elements_of (prog :: pretty n :: rest) = n + 2 ^ 64) as He.
  { rewrite elements_of_present, Ha. exact Hmod. }
  split; [exact Ha|]. split; [|split; [|split]].
  - rewrite parse_elements_value, He.
    unfold argument_absent. simpl length.
    replace (Z.of_nat 2 + Z.of_nat (length rest)) with (Z.of_nat (S (S (length rest)))) by lia.
    replace (Z.of_nat (S (S (length rest))) <=? 1) with false
      by (symmetry; apply Z.leb_gt; lia).
    now rewrite extend_nil.
  - now rewrite Hmod.
  - lia.
  - destruct (can_allocate env (n + 2 ^ 64)) eqn:Hc.
    + rewrite main_returns by (now rewrite He). now rewrite He.
    + rewrite main_throws by (now rewrite He).
      unfold argument_absent.
      replace (Z.of_nat (length (prog :: pretty n :: rest)) <=? 1) with false;
        [reflexivity|].
      symmetry. apply Z.leb_gt. simpl length. lia.
Qed.

Lemma negative_argument_wraps_witness :
  let env := example_env [] 0 in
  LONG_MIN <= -1 < 0
  /\ atol "-1" = -1
  /\ parse_elements ["reduce_bench"; "-1"] initial_process
     = Returned 18446744073709551615 initial_process
  /\ run_main env ["reduce_bench"; "-1"]
     = Thrown bad_alloc_or_length_error
         {| stdout := []; registry := []; dataset := vec_empty |}.
Proof.
  intros env.
  assert (LONG_MIN <= -1 < 0) as H by (unfold LONG_MIN; lia).
  destruct (negative_argument_wraps env "reduce_bench" [] (-1) initial_process H)
    as (Ha & Hp & _ & _ & Hm).
  split; [exact H|]. split; [exact Ha|]. split; [exact Hp|]. exact Hm.
Defined.

(** ** An empty dataset *)

Lemma division_by_zero_not_finite (x : F64.t) (s : bool) :
  F64.is_finite (F64.div x (S754_zero s)) = false.
Proof. destruct x; reflexivity. Qed.

Lemma sum_expected_empty (dataset : vector) :
  vec_size dataset = 0 -> sum_expected dataset = S754_zero false.
Proof. intros H. unfold sum_expected. rewrite H. reflexivity. Qed.

Lemma loop_trace_empty_dataset (dataset : vector) {A} (call : A -> F64.t * A)
    (n : nat) (acc : A) :
  vec_size dataset = 0 ->
  Forall (fun se =>
            snd se = F64.div (F64.abs (F64.sub (S754_zero false) (fst se))) (S754_zero false)
            /\ F64.is_finite (snd se) = false)
         (loop_trace dataset call n acc).
Proof.
  intros Hz.
  pose proof (loop_trace_relative_error dataset call n acc) as Hf.
  rewrite (sum_expected_empty dataset Hz) in Hf.
  eapply List.Forall_impl; [|exact Hf].
  intros [sum error] He. simpl in *. subst error. split; [reflexivity|].
  apply division_by_zero_not_finite.
Qed.

(** What [generic] hands back is what the last pass left. *)
Lemma generic_last (dataset : vector) {A} (call : A -> F64.t * A)
    (state : State) (acc : A) :
  (m_sum (generic dataset call state acc), m_error (generic dataset call state acc))
  = List.last (loop_trace dataset call (Z.to_nat (max_iterations state)) acc)
      (F64.of_Z 0, F64.of_Z 0).
Proof.
  unfold generic.
  pose proof (timed_loop_last dataset call (Z.to_nat (max_iterations state))
                (F64.of_Z 0) (F64.of_Z 0) acc) as Hl.
  destruct (timed_loop dataset call (Z.to_nat (max_iterations state))
              (F64.of_Z 0) (F64.of_Z 0) acc) as [[sum error] acc'].
  exact Hl.
Qed.

Lemma generic_error_empty_dataset (dataset : vector) {A} (call : A -> F64.t * A)
    (state : State) (acc : A) :
  vec_size dataset = 0 ->
  1 <= max_iterations state ->
  m_error (generic dataset call state acc)
  = F64.div (F64.abs (F64.sub (S754_zero false) (m_sum (generic dataset call state acc))))
      (S754_zero false).
Proof.
  intros Hz Hn. rewrite (generic_error dataset call state acc Hn).
  now rewrite (sum_expected_empty dataset Hz).
Qed.

Lemma percentage_not_finite (x : F64.t) :
  F64.is_finite x = false -> F64.is_finite (F64.mul x F64.hundred) = false.
Proof. destruct x; intros H; try discriminate H; reflexivity. Qed.

(** C9. When the element count is 0, as with a positional argument that
    [atol] reads as 0, [main] leaves an empty dataset and the expected sum is
    +0.0. Each pass of the loop then divides by that zero without any test,
    so the error after each pass is never a finite number (it is a NaN or an
    infinity). This is what [generic] ends with after a run of at least one
    pass: its error is the quotient of the last pass, not finite, and the
    lead context publishes it, times 100, as "error,%"; the same holds of the
    error of every case the framework runs, static or OpenCL. *)
Theorem zero_elements_divide_by_zero
    (env : Env) (argv : list string) (A : Type) (call : A -> F64.t * A)
    (n : nat) (acc : A) (state : State) :
  elements_of argv = 0 ->
  can_allocate env 0 = true ->
  1 <= max_iterations state ->
  exists p : Process,
    run_main env argv = Returned 0 p
    /\ vec_size (dataset p) = 0
    /\ sum_expected (dataset p) = S754_zero false
    /\ length (loop_trace (dataset p) call n acc) = n
    /\ Forall (fun se =>
                 snd se = F64.div (F64.abs (F64.sub (S754_zero false) (fst se)))
                            (S754_zero false)
                 /\ F64.is_finite (snd se) = false)
              (loop_trace (dataset p) call n acc)
    /\ (let m := generic (dataset p) call state acc in
        (m_sum m, m_error m)
        = List.last (loop_trace (dataset p) call (Z.to_nat (max_iterations state)) acc)
            (F64.of_Z 0, F64.of_Z 0)
        /\ m_error m
           = F64.div (F64.abs (F64.sub (S754_zero false) (m_sum m))) (S754_zero false)
        /\ F64.is_finite (m_error m) = false
        /\ (thread_index state = 0 ->
            counters (m_state m) !! "error,%"
            = Some {| value := F64.mul (m_error m) F64.hundred; flags := kDefaults |}
            /\ F64.is_finite (F64.mul (m_error m) F64.hundred) = false))
    /\ (forall (current : loop_vars) (b : Benchmark),
          let r := run_case env (dataset p) current b state in
          r_error r = F64.div (F64.abs (F64.sub (S754_zero false) (r_sum r)))
                        (S754_zero false)
          /\ F64.is_finite (r_error r) = false).
Proof.
  intros He Hcan Hiter.
  eexists. split; [apply main_returns; now rewrite He|].
  simpl dataset. rewrite He.
  assert (vec_size (dataset_of_size 0) = 0) as Hz by reflexivity.
  split; [exact Hz|]. split; [now apply sum_expected_empty|].
  split; [apply loop_trace_length|].
  split; [now apply loop_trace_empty_dataset|].
  split.
  - cbv zeta.
    pose proof (generic_error_empty_dataset (dataset_of_size 0) call state acc Hz Hiter)
      as Hg.
    assert (F64.is_finite (m_error (generic (dataset_of_size 0) call state acc)) = false)
      as Hnf by (rewrite Hg; apply division_by_zero_not_finite).
    split; [apply generic_last|]. split; [exact Hg|]. split; [exact Hnf|].
    intros H0. split.
    + rewrite generic_counters_lead by exact H0. apply lookup_insert_eq.
    + now apply percentage_not_finite.
  - intros current b r.
    assert (r_error r = F64.div (F64.abs (F64.sub (S754_zero false) (r_sum r)))
                          (S754_zero false)) as Hr.
    { subst r. rewrite (run_case_error env (dataset_of_size 0) current b state Hiter).
      now rewrite (sum_expected_empty _ Hz). }
    split; [exact Hr|]. rewrite Hr. apply division_by_zero_not_finite.
Qed.

Lemma zero_elements_divide_by_zero_witness :
  let env := example_env [] 0 in
  let argv := ["reduce_bench"; "0"] in
  let state := example_state 3 0 in
  elements_of argv = 0
  /\ can_allocate env 0 = true
  /\ 1 <= max_iterations state
  /\ exists p : Process,
       run_main env argv = Returned 0 p
       /\ vec_size (dataset p) = 0
       /\ sum_expected (dataset p) = S754_zero false
       /\ length (loop_trace (dataset p) (acc_call example_accumulator) 3 (dataset p)) = 3%nat
       /\ loop_trace (dataset p) (acc_call example_accumulator) 3 (dataset p)
          = [(S754_zero false, S754_nan); (S754_zero false, S754_nan);
             (S754_zero false, S754_nan)]
       /\ F64.is_finite
            (m_error (generic (dataset p) (acc_call example_accumulator) state (dataset p)))
          = false
       /\ m_error (generic (dataset p) (acc_call example_accumulator) state (dataset p))
          = S754_nan
       /\ counters (m_state (generic (dataset p) (acc_call example_accumulator)
                               state (dataset p))) !! "error,%"
          = Some {| value := S754_nan; flags := kDefaults |}.
Proof.
  intros env argv state.
  assert (elements_of argv = 0) as H1 by reflexivity.
  assert (can_allocate env 0 = true) as H2 by reflexivity.
  assert (1 <= max_iterations state) as H3 by (simpl; lia).
  split; [exact H1|]. split; [exact H2|]. split; [exact H3|].
  destruct (zero_elements_divide_by_zero env argv _
              (acc_call example_accumulator) 3 (dataset_of_size 0) state H1 H2 H3)
    as (p & Hrun & Hsize & Hsum & Hlen & _ & Hgen & _).
  exists p. split; [exact Hrun|]. split; [exact Hsize|]. split; [exact Hsum|].
  assert (p = {| stdout := main_stdout env argv; registry := main_registry env;
                 dataset := dataset_of_size 0 |}) as Hp.
  { rewrite main_returns in Hrun by reflexivity. now inversion Hrun. }
  subst p.
  destruct Hgen as (_ & _ & Hnf & _).
  split; [reflexivity|]. split; [reflexivity|]. split; [exact Hnf|].
  split; reflexivity.
Defined.

(** ** Names of the OpenCL cases *)

Lemma string_app_cons (c : ascii) (a b : string) :
  String c a +:+ b = String c (a +:+ b).
Proof. reflexivity. Qed.

Lemma string_app_assoc (a b c : string) : (a +:+ b) +:+ c = a +:+ b +:+ c.
Proof.
  induction a as [|x a IH]; [reflexivity|].
  now rewrite !string_app_cons, IH.
Qed.

Lemma string_app_nil_r (a : string) : a +:+ "" = a.
Proof.
  induction a as [|x a IH]; [reflexivity|].
  now rewrite string_app_cons, IH.
Qed.

(** Two texts without a space, each followed by a space, are equal when the
    results are. *)
Lemma split_at_space (a b r r' : string) :
  no_space a -> no_space b ->
  a +:+ String " " r = b +:+ String " " r' -> a = b /\ r = r'.
Proof.
  revert b. induction a as [|x a IH]; intros [|y b] Ha Hb Heq.
  - injection Heq as ->. now split.
  - rewrite string_app_cons in Heq. injection Heq as Hy _.
    destruct Hb as [Hb _]. now symmetry in Hy.
  - rewrite string_app_cons in Heq. injection Heq as Hx _.
    destruct Ha as [Ha _]. contradiction.
  - rewrite !string_app_cons in Heq. injection Heq as -> Heq.
    destruct Ha as [_ Ha], Hb as [_ Hb].
    destruct (IH b Ha Hb Heq) as [-> ->]. now split.
Qed.

Lemma pretty_N_char_not_space (d : N) : pretty_N_char d <> " "%char.
Proof. unfold pretty_N_char. repeat case_match; discriminate. Qed.

Lemma no_space_pretty_go (x : N) (s : string) :
  no_space s -> no_space (pretty_N_go x s).
Proof.
  revert s. induction (N.lt_wf_0 x) as [x _ IH]. intros s Hs.
  destruct (N.eq_dec x 0%N) as [->|Hx]; [exact Hs|].
  rewrite pretty_N_go_step by lia.
  apply IH; [apply N.div_lt; lia|].
  split; [apply pretty_N_char_not_space | exact Hs].
Qed.

Lemma no_space_pretty (g : Z) : no_space (pretty g).
Proof.
  destruct g as [|p|p].
  - simpl. split; [discriminate|exact I].
  - rewrite pretty_positive_go. now apply no_space_pretty_go.
  - rewrite pretty_negative_go. split; [discriminate|]. now apply no_space_pretty_go.
Qed.

Lemma opencl_case_name_inj (k k' : string) (g g' : Z) (t t' : opencl_target) :
  no_space k -> no_space k' ->
  opencl_case_name k g t = opencl_case_name k' g' t' ->
  k = k' /\ g = g' /\ device_name t = device_name t'.
Proof.
  intros Hk Hk' Heq. unfold opencl_case_name in Heq.
  apply (inj (String.app "opencl-")) in Heq.
  change (" split by " +:+ pretty g +:+ " on " +:+ device_name t)
    with (String " " ("split by " +:+ pretty g +:+ " on " +:+ device_name t)) in Heq.
  change (" split by " +:+ pretty g' +:+ " on " +:+ device_name t')
    with (String " " ("split by " +:+ pretty g' +:+ " on " +:+ device_name t')) in Heq.
  apply split_at_space in Heq as [-> Heq]; [|assumption..].
  apply (inj (String.app "split by ")) in Heq.
  change (" on " +:+ device_name t) with (String " " ("on " +:+ device_name t)) in Heq.
  change (" on " +:+ device_name t') with (String " " ("on " +:+ device_name t')) in Heq.
  apply split_at_space in Heq as [Hg Heq]; [|apply no_space_pretty..].
  apply (inj pretty) in Hg. apply (inj (String.app "on ")) in Heq.
  now repeat split.
Qed.

Lemma opencl_case_name_contains (k : string) (g : Z) (t : opencl_target) :
  contains k (opencl_case_name k g t)
  /\ contains (pretty g) (opencl_case_name k g t)
  /\ contains (device_name t) (opencl_case_name k g t).
Proof.
  unfold contains, opencl_case_name. repeat split.
  - exists "opencl-", (" split by " +:+ pretty g +:+ " on " +:+ device_name t).
    reflexivity.
  - exists ("opencl-" +:+ k +:+ " split by "), (" on " +:+ device_name t).
    now rewrite !string_app_assoc.
  - exists ("opencl-" +:+ k +:+ " split by " +:+ pretty g +:+ " on "), "".
    now rewrite !string_app_assoc, string_app_nil_r.
Qed.

(** ** The matrix of OpenCL cases *)

Lemma map_flat_map {X Y W} (h : Y -> W) (f : X -> list Y) (l : list X) :
  map h (flat_map f l) = flat_map (fun x => map h (f x)) l.
Proof.
  induction l as [|x l IH]; [reflexivity|].
  simpl. now rewrite map_app, IH.
Qed.

Lemma flat_map_pointwise {X Y} (f f' : X -> list Y) (l : list X) :
  (forall x, f x = f' x) -> flat_map f l = flat_map f' l.
Proof. intros H. induction l as [|x l IH]; simpl; [reflexivity|]. now rewrite H, IH. Qed.

Lemma opencl_cases_names (env : Env) :
  map bench_name (opencl_cases env) = opencl_names env.
Proof.
  unfold opencl_cases, opencl_names. rewrite map_flat_map.
  apply flat_map_pointwise. intros tgt. rewrite map_flat_map.
  apply flat_map_pointwise. intros kernel_name. now rewrite map_map.
Qed.

Lemma length_flat_map_uniform {X Y} (f : X -> list Y) (l : list X) (c : nat) :
  (forall x, length (f x) = c) -> length (flat_map f l) = (length l * c)%nat.
Proof.
  intros Hc. induction l as [|x l IH]; [reflexivity|].
  simpl. rewrite length_app, Hc, IH. lia.
Qed.

Lemma opencl_cases_length (env : Env) :
  length (opencl_cases env)
  = (length (opencl_targets env) * length (kernels_k env)
     * length (opencl_wg_sizes env))%nat.
Proof.
  unfold opencl_cases.
  rewrite (length_flat_map_uniform _ _
             (length (kernels_k env) * length (opencl_wg_sizes env))); [lia|].
  intros tgt. apply length_flat_map_uniform. intros kernel_name. apply length_map.
Qed.

Lemma in_opencl_cases (env : Env) (b : Benchmark) :
  In b (opencl_cases env) <->
  exists tgt kernel_name group_size,
    In tgt (opencl_targets env) /\ In kernel_name (kernels_k env)
    /\ In group_size (opencl_wg_sizes env)
    /\ b = opencl_case_of tgt kernel_name group_size.
Proof.
  unfold opencl_cases. rewrite in_flat_map. split.
  - intros (tgt & Ht & Hb). apply in_flat_map in Hb as (k & Hk & Hb).
    apply in_map_iff in Hb as (g & <- & Hg). now exists tgt, k, g.
  - intros (tgt & k & g & Ht & Hk & Hg & ->). exists tgt. split; [exact Ht|].
    apply in_flat_map. exists k. split; [exact Hk|].
    apply in_map_iff. now exists g.
Qed.

Lemma filter_all {X} (f : X -> bool) (l : list X) :
  Forall (fun x => f x = true) l -> List.filter f l = l.
Proof.
  induction 1 as [|x l Hx _ IH]; [reflexivity|].
  simpl. now rewrite Hx, IH.
Qed.

Lemma filter_none {X} (f : X -> bool) (l : list X) :
  Forall (fun x => f x = false) l -> List.filter f l = [].
Proof.
  induction 1 as [|x l Hx _ IH]; [reflexivity|].
  simpl. now rewrite Hx, IH.
Qed.

Lemma opencl_cases_are_opencl (env : Env) :
  Forall (fun b => is_opencl_case b = true) (opencl_cases env).
Proof.
  apply List.Forall_forall. intros b Hb.
  apply in_opencl_cases in Hb as (t & k & g & _ & _ & _ & ->). reflexivity.
Qed.

Lemma static_cases_are_not_opencl (env : Env) :
  Forall (fun b => is_opencl_case b = false) (cpu_cases ++ cuda_cases env).
Proof.
  apply Forall_app. split.
  - unfold cpu_cases. repeat constructor.
  - unfold cuda_cases. destruct (cuda_device_count env =? 0); repeat constructor.
Qed.

(** The cases of the registry that came from the OpenCL loop. *)
Lemma main_registry_opencl (env : Env) :
  List.filter is_opencl_case (main_registry env) = opencl_cases env.
Proof.
  unfold main_registry. rewrite app_assoc, List.filter_app.
  rewrite (filter_none _ _ (static_cases_are_not_opencl env)).
  apply filter_all, opencl_cases_are_opencl.
Qed.

Lemma returned_process (env : Env) (argv : list string) (r : Z) (p : Process) :
  run_main env argv = Returned r p ->
  r = 0
  /\ p = {| stdout := main_stdout env argv;
            registry := main_registry env;
            dataset := dataset_of_size (elements_of argv) |}.
Proof.
  intros Hrun. destruct (can_allocate env (elements_of argv)) eqn:Hc.
  - rewrite main_returns in Hrun by exact Hc. now inversion Hrun.
  - rewrite main_throws in Hrun by exact Hc. discriminate.
Qed.

Lemma NoDup_map_injective_on {X Y} (f : X -> Y) (l : list X) (x y : X) :
  NoDup (map f l) -> In x l -> In y l -> f x = f y -> x = y.
Proof.
  induction l as [|a l IH]; simpl; [contradiction|].
  intros Hnd Hx Hy Hxy. apply NoDup_cons in Hnd as [Hna Hnd].
  rewrite list_elem_of_In in Hna.
  destruct Hx as [->|Hx], Hy as [->|Hy]; auto.
  - exfalso. apply Hna. rewrite Hxy. now apply in_map.
  - exfalso. apply Hna. rewrite <- Hxy. now apply in_map.
Qed.

Lemma elem_of_case_names (env : Env) (tgt : opencl_target) (y : string) :
  y ∈ (kernels_k env ≫= fun kernel_name =>
         (fun group_size => opencl_case_name kernel_name group_size tgt)
           <$> opencl_wg_sizes env) ->
  exists kernel_name group_size,
    In kernel_name (kernels_k env) /\ In group_size (opencl_wg_sizes env)
    /\ y = opencl_case_name kernel_name group_size tgt.
Proof.
  intros Hy. apply list_elem_of_bind in Hy as (k & Hy & Hk).
  apply list_elem_of_fmap in Hy as (g & -> & Hg).
  exists k, g. now rewrite <- !list_elem_of_In.
Qed.

(** Distinct device names, distinct kernel names without spaces and distinct
    work-group sizes give distinct case names. *)
Lemma opencl_names_NoDup (env : Env) :
  NoDup (map device_name (opencl_targets env)) ->
  NoDup (kernels_k env) ->
  NoDup (opencl_wg_sizes env) ->
  Forall no_space (kernels_k env) ->
  NoDup (opencl_names env).
Proof.
  intros Hdev Hker Hsize Hns. rewrite List.Forall_forall in Hns.
  change (NoDup (opencl_targets env ≫= fun tgt =>
                   kernels_k env ≫= fun kernel_name =>
                     (fun group_size => opencl_case_name kernel_name group_size tgt)
                       <$> opencl_wg_sizes env)).
  apply NoDup_bind.
  - intros t1 t2 y Ht1 Ht2 Hy1 Hy2.
    apply elem_of_case_names in Hy1 as (k1 & g1 & Hk1 & _ & ->).
    apply elem_of_case_names in Hy2 as (k2 & g2 & Hk2 & _ & Heq).
    apply opencl_case_name_inj in Heq as (_ & _ & Hd); auto.
    apply list_elem_of_In in Ht1, Ht2.
    exact (NoDup_map_injective_on device_name _ t1 t2 Hdev Ht1 Ht2 Hd).
  - intros tgt _. apply NoDup_bind.
    + intros k1 k2 y Hk1 Hk2 Hy1 Hy2.
      apply list_elem_of_fmap in Hy1 as (g1 & -> & _).
      apply list_elem_of_fmap in Hy2 as (g2 & Heq & _).
      apply list_elem_of_In in Hk1, Hk2.
      apply opencl_case_name_inj in Heq as (Hk & _ & _); auto.
    + intros k Hk. apply list_elem_of_In in Hk.
      apply NoDup_fmap_2_strong; [|exact Hsize].
      intros g1 g2 _ _ Heq.
      apply opencl_case_name_inj in Heq as (_ & Hg & _); auto.
    + exact Hker.
  - exact (NoDup_fmap_1 device_name _ Hdev).
Qed.

(** C2, as amended. Whenever the dataset can be allocated, [main] returns
    and has registered one OpenCL case for every target,
    kernel and work-group size, in the order of the three loops, so their
    number is |targets| x |kernels| x |sizes|; the name of each contains its
    kernel name, the decimal text of its size and the device name of its
    target. The names are pairwise distinct when the device names of the
    targets are, the kernel names are and hold no space, and the sizes are. *)
Theorem opencl_case_matrix (env : Env) (argv : list string) :
  can_allocate env (elements_of argv) = true ->
  exists p : Process,
    run_main env argv = Returned 0 p
    /\ let dynamic := List.filter is_opencl_case (registry p) in
       dynamic = opencl_cases env
       /\ length dynamic
          = (length (opencl_targets env) * length (kernels_k env)
             * length (opencl_wg_sizes env))%nat
       /\ (forall tgt kernel_name group_size,
             In tgt (opencl_targets env) -> In kernel_name (kernels_k env) ->
             In group_size (opencl_wg_sizes env) ->
             In (opencl_case_of tgt kernel_name group_size) dynamic)
       /\ (forall b, In b dynamic ->
             exists tgt kernel_name group_size,
               In tgt (opencl_targets env) /\ In kernel_name (kernels_k env)
               /\ In group_size (opencl_wg_sizes env)
               /\ b = opencl_case_of tgt kernel_name group_size
               /\ contains kernel_name (bench_name b)
               /\ contains (pretty group_size) (bench_name b)
               /\ contains (device_name tgt) (bench_name b))
       /\ (NoDup (map device_name (opencl_targets env)) ->
           NoDup (kernels_k env) -> NoDup (opencl_wg_sizes env) ->
           Forall no_space (kernels_k env) ->
           NoDup (map bench_name dynamic)).
Proof.
  intros Halloc. eexists. split; [now apply main_returns|].
  simpl registry. rewrite main_registry_opencl.
  split; [reflexivity|]. split; [apply opencl_cases_length|].
  split; [|split].
  - intros tgt k g Ht Hk Hg. apply in_opencl_cases. now exists tgt, k, g.
  - intros b Hb. apply in_opencl_cases in Hb as (tgt & k & g & Ht & Hk & Hg & ->).
    exists tgt, k, g. repeat split; auto; apply opencl_case_name_contains.
  - intros Hdev Hker Hsize Hns. rewrite opencl_cases_names.
    now apply opencl_names_NoDup.
Qed.

Lemma opencl_case_matrix_witness :
  let env := example_env [example_target "A100"; example_target "MI250"] 1 in
  let argv := ["reduce_bench"; "1024"] in
  can_allocate env (elements_of argv) = true
  /\ exists p : Process,
       run_main env argv = Returned 0 p
       /\ length (List.filter is_opencl_case (registry p)) = 12%nat
       /\ NoDup (map bench_name (List.filter is_opencl_case (registry p))).
Proof.
  intros env argv.
  assert (can_allocate env (elements_of argv) = true) as Halloc by reflexivity.
  split; [exact Halloc|].
  destruct (opencl_case_matrix env argv Halloc) as (p & Hrun & _ & Hlen & _ & _ & Hnd).
  exists p. split; [exact Hrun|]. split; [exact Hlen|].
  apply Hnd.
  - apply (bool_decide_unpack _). vm_compute. exact I.
  - apply (bool_decide_unpack _). vm_compute. exact I.
  - apply (bool_decide_unpack _). vm_compute. exact I.
  - simpl. repeat constructor; discriminate.
Defined.

(** C2 as stated fails when two targets carry the same device name, as two
    GPUs of one model do: the twelve cases of 2 targets, 3 kernels and 2
    sizes then have only six distinct names. *)
Lemma identical_devices_share_names :
  let env := example_env [example_target "A100"; example_target "A100"] 1 in
  let p := final_process (run_main env ["reduce_bench"; "1024"]) in
  length (List.filter is_opencl_case (registry p)) = 12%nat
  /\ ~ NoDup (map bench_name (List.filter is_opencl_case (registry p))).
Proof.
  intros env p. split; [reflexivity|].
  intros Hnd. apply (bool_decide_pack _) in Hnd. vm_compute in Hnd. exact Hnd.
Qed.

(** Spaces in kernel names can make names coincide although the device
    names, the kernel names and the sizes are pairwise distinct. *)
Lemma spaces_in_kernel_names_share_names :
  opencl_case_name "a split by 1 on b" 2 (example_target "x")
  = opencl_case_name "a" 1 (example_target "b split by 2 on x").
Proof. reflexivity. Qed.

(** ** Absent devices *)

Lemma opencl_cases_are_not_cuda (env : Env) :
  Forall (fun b => is_cuda_case b = false) (opencl_cases env).
Proof.
  apply List.Forall_forall. intros b Hb.
  apply in_opencl_cases in Hb as (t & k & g & _ & _ & _ & ->). reflexivity.
Qed.

Lemma cpu_cases_are_not_cuda : Forall (fun b => is_cuda_case b = false) cpu_cases.
Proof. unfold cpu_cases. repeat constructor. Qed.

Lemma count_occ_log_lines (targets : list opencl_target) :
  count_occ string_dec (map opencl_log_line targets) no_cuda_message = 0%nat.
Proof.
  induction targets as [|t l IH]; [reflexivity|].
  simpl map. rewrite count_occ_cons_neq; [exact IH|].
  unfold opencl_log_line, no_cuda_message. discriminate.
Qed.

(** C4. Whenever the dataset can be allocated, [main] returns, and then:
    with no CUDA device no registered case is CUDA-backed and the line
    "No CUDA capable devices found!" is printed exactly once; with no OpenCL
    target no case comes from the OpenCL loop. *)
Theorem no_devices_no_cases (env : Env) (argv : list string) :
  can_allocate env (elements_of argv) = true ->
  exists p : Process,
    run_main env argv = Returned 0 p
    /\ (cuda_device_count env = 0 ->
          Forall (fun b => is_cuda_case b = false) (registry p)
          /\ count_occ string_dec (stdout p) no_cuda_message = 1%nat)
    /\ (opencl_targets env = [] -> List.filter is_opencl_case (registry p) = []).
Proof.
  intros Halloc. eexists. split; [now apply main_returns|].
  simpl registry. simpl stdout. split.
  - intros Hcuda. split.
    + unfold main_registry, cuda_cases. rewrite Hcuda.
      change (if 0 =? 0 then [] else _) with (@nil Benchmark).
      apply Forall_app. split; [apply cpu_cases_are_not_cuda|].
      apply opencl_cases_are_not_cuda.
    + unfold main_stdout. rewrite Hcuda. simpl (0 =? 0).
      rewrite !count_occ_app, count_occ_log_lines.
      destruct (argument_absent argv); reflexivity.
  - intros Hnone. rewrite main_registry_opencl. unfold opencl_cases.
    now rewrite Hnone.
Qed.

Lemma no_devices_no_cases_witness :
  let env := example_env [] 0 in
  let argv := ["reduce_bench"; "1024"] in
  can_allocate env (elements_of argv) = true
  /\ exists p : Process,
       run_main env argv = Returned 0 p
       /\ Forall (fun b => is_cuda_case b = false) (registry p)
       /\ count_occ string_dec (stdout p) no_cuda_message = 1%nat
       /\ List.filter is_opencl_case (registry p) = [].
Proof.
  intros env argv.
  assert (can_allocate env (elements_of argv) = true) as Halloc by reflexivity.
  split; [exact Halloc|].
  destruct (no_devices_no_cases env argv Halloc) as (p & Hrun & Hcuda & Hocl).
  destruct (Hcuda eq_refl) as (Hnone & Hline).
  exists p. split; [exact Hrun|]. split; [exact Hnone|].
  split; [exact Hline | exact (Hocl eq_refl)].
Defined.

(** ** What a registered OpenCL case is bound to *)

(** A lambda that captured by reference would follow the loop variables. *)
Lemma by_reference_sees_current (created current : loop_vars) :
  closure_vars current {| cl_capture := by_reference; cl_created := created |} = current.
Proof. reflexivity. Qed.

Lemma by_copy_sees_created (created current : loop_vars) :
  closure_vars current {| cl_capture := by_copy; cl_created := created |} = created.
Proof. reflexivity. Qed.

(** C8, as amended. The lambda of the OpenCL loop captures by copy and
    [RegisterBenchmark] copies the name: whenever the dataset can be
    allocated, [main] returns and every registered OpenCL case holds
    the name, target, kernel and work-group size of the pass that registered
    it, and what it sees and does when it runs does not depend on the values
    the loop variables have taken since. *)
Theorem opencl_cases_hold_copies (env : Env) (argv : list string) :
  can_allocate env (elements_of argv) = true ->
  exists p : Process,
    run_main env argv = Returned 0 p
    /\ forall b, In b (List.filter is_opencl_case (registry p)) ->
         exists tgt kernel_name group_size,
           let created := {| lv_tgt := tgt; lv_group_size := group_size;
                             lv_kernel_name := kernel_name |} in
           bench_fn b = opencl_lambda {| cl_capture := by_copy; cl_created := created |}
           /\ bench_name b = opencl_case_name kernel_name group_size tgt
           /\ (forall current,
                 case_bindings current b
                 = Some (opencl_case_name kernel_name group_size tgt, created))
           /\ (forall current data state,
                 run_case env data current b state
                 = report (opencl_case env data created state)).
Proof.
  intros Halloc. eexists. split; [now apply main_returns|].
  simpl registry. rewrite main_registry_opencl. intros b Hb.
  apply in_opencl_cases in Hb as (tgt & k & g & _ & _ & _ & ->).
  exists tgt, k, g. repeat split.
Qed.

Lemma opencl_cases_hold_copies_witness :
  let env := example_env [example_target "A100"; example_target "MI250"] 1 in
  let argv := ["reduce_bench"; "1024"] in
  let first := opencl_case_of (example_target "A100") "reduce_simple" 8 in
  can_allocate env (elements_of argv) = true
  /\ exists p : Process,
       run_main env argv = Returned 0 p
       /\ In first (List.filter is_opencl_case (registry p))
       /\ exists tgt kernel_name group_size,
            bench_name first = opencl_case_name kernel_name group_size tgt
            /\ forall current,
                 case_bindings current first
                 = Some (opencl_case_name kernel_name group_size tgt,
                         {| lv_tgt := tgt; lv_group_size := group_size;
                            lv_kernel_name := kernel_name |}).
Proof.
  intros env argv first.
  assert (can_allocate env (elements_of argv) = true) as Halloc by reflexivity.
  split; [exact Halloc|].
  destruct (opencl_cases_hold_copies env argv Halloc) as (p & Hrun & Hall).
  assert (In first (List.filter is_opencl_case (registry p))) as Hin.
  { assert (p = {| stdout := main_stdout env argv; registry := main_registry env;
                   dataset := dataset_of_size 1024 |}) as ->
      by (rewrite main_returns in Hrun by exact Halloc; now inversion Hrun).
    now left. }
  exists p. split; [exact Hrun|]. split; [exact Hin|].
  destruct (Hall first Hin) as (tgt & k & g & _ & Hname & Hbind & _).
  exists tgt, k, g. split; [exact Hname | exact Hbind].
Defined.

(** C8 as stated fails: with two targets, no registered OpenCL case changes
    what it is bound to when the loop variables change, and the first case,
    run when the loop variables hold the values of the last pass, is still
    bound to the first target, kernel and size. *)
Lemma no_case_depends_on_the_loop_variables :
  let env := example_env [example_target "A100"; example_target "MI250"] 1 in
  let p := final_process (run_main env ["reduce_bench"; "1024"]) in
  let last_pass := {| lv_tgt := example_target "MI250"; lv_group_size := 32;
                      lv_kernel_name := "reduce_in_shared" |} in
  ~ (exists b current current',
       In b (List.filter is_opencl_case (registry p))
       /\ case_bindings current b <> case_bindings current' b)
  /\ (exists first rest,
        List.filter is_opencl_case (registry p) = first :: rest
        /\ case_bindings last_pass first
           = Some ("opencl-reduce_simple split by 8 on A100",
                   {| lv_tgt := example_target "A100"; lv_group_size := 8;
                      lv_kernel_name := "reduce_simple" |})).
Proof.
  intros env p last_pass. split.
  - intros (b & current & current' & Hb & Hne). apply Hne.
    assert (Forall (fun b => forall c c', case_bindings c b = case_bindings c' b)
              (List.filter is_opencl_case (registry p))) as Hall
      by (repeat constructor).
    rewrite List.Forall_forall in Hall. now apply Hall.
  - eexists _, _. split; reflexivity.
Qed.

(** ** One accumulator per run *)

(** [automatic] constructs the accumulator once, and the loop calls that one
    object once per pass: the accumulator handed back is the constructed one
    after [max_iterations] calls. What a call does to the dataset and how far
    two sums of one backend may differ is decided by the accumulator classes
    of the headers. *)
Lemma timed_loop_accumulator (data : vector) {A} (call : A -> F64.t * A)
    (n : nat) (sum error : F64.t) (acc : A) :
  snd (timed_loop data call n sum error acc) = Nat.iter n (fun a => snd (call a)) acc.
Proof.
  revert sum error acc. induction n as [|n IH]; intros sum error acc; [reflexivity|].
  rewrite Nat.iter_succ_r. simpl timed_loop. unfold loop_body.
  destruct (call acc) as [sum' acc']. simpl. apply IH.
Qed.

Lemma automatic_constructs_once (data : vector) (cls : accumulator_class) (state : State) :
  m_accumulator (automatic data cls state)
  = Nat.iter (Z.to_nat (max_iterations state)) (fun a => snd (acc_call cls a))
      (acc_construct cls data).
Proof.
  unfold automatic, generic.
  pose proof (timed_loop_accumulator data (acc_call cls)
                (Z.to_nat (max_iterations state)) (F64.of_Z 0) (F64.of_Z 0)
                (acc_construct cls data)) as H.
  destruct (timed_loop data (acc_call cls) (Z.to_nat (max_iterations state))
              (F64.of_Z 0) (F64.of_Z 0) (acc_construct cls data)) as [[sum error] acc'].
  exact H.
Qed.

(** * Further properties of [generic], [automatic] and [main] *)

(** ** Signs and special values of the error *)

Lemma binary_round_aux_sign (prec emax : Z) (s : bool) (m e : Z) (l : location) :
  sign_of (binary_round_aux prec emax s m e l) = Some s
  \/ binary_round_aux prec emax s m e l = S754_nan.
Proof.
  unfold binary_round_aux.
  destruct (shr_fexp prec emax m e l) as [mrs' e'].
  destruct (shr_fexp prec emax _ e' loc_Exact) as [mrs'' e''].
  destruct (shr_m mrs'') as [|q|q]; [now left | | now right].
  destruct (e'' <=? emax - prec); now left.
Qed.

Lemma of_Z_unsigned (n : Z) : 0 <= n -> nan_or_unsigned (F64.of_Z n).
Proof.
  intros Hn. unfold F64.of_Z, binary_normalize.
  destruct n as [|q|q]; [now right | | lia].
  unfold binary_round.
  destruct (shl_align q 0 _) as [mz ez].
  destruct (binary_round_aux_sign F64.prec F64.emax false (Z.pos mz) ez loc_Exact)
    as [H|H]; [now right | now left].
Qed.

Lemma mul_unsigned (x y : F64.t) :
  nan_or_unsigned x -> nan_or_unsigned y -> nan_or_unsigned (F64.mul x y).
Proof.
  intros [->|Hx] [->|Hy]; try (now left); try (destruct x; now left).
  destruct x as [sx|sx| |sx mx ex], y as [sy|sy| |sy my ey];
    simpl in Hx, Hy; try discriminate;
    injection Hx as ->; injection Hy as ->;
    try (now left); try (now right).
  unfold F64.mul, SFmul.
  destruct (binary_round_aux_sign F64.prec F64.emax (xorb false false)
              (Z.pos (mx * my)) (ex + ey) loc_Exact) as [H|H]; [now right | now left].
Qed.

Lemma div_unsigned (x y : F64.t) :
  nan_or_unsigned x -> nan_or_unsigned y -> nan_or_unsigned (F64.div x y).
Proof.
  intros [->|Hx] [->|Hy]; try (now left); try (destruct x; now left).
  destruct x as [sx|sx| |sx mx ex], y as [sy|sy| |sy my ey];
    simpl in Hx, Hy; try discriminate;
    injection Hx as ->; injection Hy as ->;
    try (now left); try (now right).
  unfold F64.div, SFdiv.
  destruct (SFdiv_core_binary F64.prec F64.emax (Z.pos mx) ex (Z.pos my) ey)
    as [[mz ez] lz].
  destruct (binary_round_aux_sign F64.prec F64.emax (xorb false false) mz ez lz)
    as [H|H]; [now right | now left].
Qed.

Lemma abs_unsigned (x : F64.t) : nan_or_unsigned (F64.abs x).
Proof. destruct x; [now right | now right | now left | now right]. Qed.

Lemma sum_expected_unsigned (dataset : vector) :
  0 <= vec_size dataset -> nan_or_unsigned (sum_expected dataset).
Proof.
  intros Hn. unfold sum_expected.
  apply mul_unsigned; [now apply of_Z_unsigned | now right].
Qed.

Lemma relative_error_unsigned (expected observed : F64.t) :
  nan_or_unsigned expected -> nan_or_unsigned (relative_error expected observed).
Proof.
  intros He. unfold relative_error. apply div_unsigned; [apply abs_unsigned|exact He].
Qed.

Lemma timed_loop_error_cases (dataset : vector) {A} (call : A -> F64.t * A)
    (n : nat) (sum error : F64.t) (acc : A) :
  snd (fst (timed_loop dataset call n sum error acc)) = error
  \/ exists observed,
       snd (fst (timed_loop dataset call n sum error acc))
       = relative_error (sum_expected dataset) observed.
Proof.
  revert sum error acc. induction n as [|n IH]; intros sum error acc; [now left|].
  simpl timed_loop. unfold loop_body. destruct (call acc) as [sum' acc'].
  right. destruct (IH sum' (F64.div (F64.abs (F64.sub (sum_expected dataset) sum'))
                              (sum_expected dataset)) acc') as [H|[o H]].
  - exists sum'. exact H.
  - exists o. exact H.
Qed.

Lemma generic_error_cases (dataset : vector) {A} (call : A -> F64.t * A)
    (state : State) (acc : A) :
  m_error (generic dataset call state acc) = F64.of_Z 0
  \/ exists observed,
       m_error (generic dataset call state acc)
       = relative_error (sum_expected dataset) observed.
Proof.
  unfold generic.
  pose proof (timed_loop_error_cases dataset call (Z.to_nat (max_iterations state))
                (F64.of_Z 0) (F64.of_Z 0) acc) as H.
  destruct (timed_loop dataset call (Z.to_nat (max_iterations state))
              (F64.of_Z 0) (F64.of_Z 0) acc) as [[sum error] acc'].
  exact H.
Qed.

Lemma published_error (dataset : vector) {A} (call : A -> F64.t * A)
    (state : State) (acc : A) :
  thread_index state = 0 ->
  published (m_state (generic dataset call state acc)) "error,%"
  = Some {| value := F64.mul (m_error (generic dataset call state acc)) F64.hundred;
            flags := kDefaults |}.
Proof.
  intros H0. unfold published. rewrite generic_counters_lead by exact H0.
  apply lookup_insert_eq.
Qed.

(** X1. For a dataset of any size and whatever the accumulator returns,
    the error is never a negative number, and never -0: after every pass of
    the loop, at the end of [generic], and as the published percentage, it is
    either a NaN or a value whose sign bit is clear (+0, a positive number or
    +infinity). Of the sign of a NaN nothing is claimed. *)
Theorem error_is_never_negative (dataset : vector) (A : Type) (call : A -> F64.t * A)
    (state : State) (acc : A) (n : nat) :
  0 <= vec_size dataset ->
  Forall (fun se => snd se = S754_nan \/ sign_of (snd se) = Some false)
    (loop_trace dataset call n acc)
  /\ (m_error (generic dataset call state acc) = S754_nan
      \/ sign_of (m_error (generic dataset call state acc)) = Some false)
  /\ (thread_index state = 0 ->
      exists c, published (m_state (generic dataset call state acc)) "error,%" = Some c
                /\ (value c = S754_nan \/ sign_of (value c) = Some false)).
Proof.
  intros Hn. pose proof (sum_expected_unsigned dataset Hn) as Hse.
  assert (nan_or_unsigned (m_error (generic dataset call state acc))) as Herr.
  { destruct (generic_error_cases dataset call state acc) as [->|[o ->]];
      [now right | now apply relative_error_unsigned]. }
  split; [|split].
  - eapply List.Forall_impl; [|apply loop_trace_relative_error].
    intros [sum error] He. simpl in *. subst error.
    now apply relative_error_unsigned.
  - exact Herr.
  - intros H0. eexists. split; [now apply published_error|].
    simpl. apply mul_unsigned; [exact Herr | now right].
Qed.

Lemma error_is_never_negative_witness :
  let dataset := dataset_of_size 4 in
  let empty := dataset_of_size 0 in
  0 <= vec_size dataset
  /\ loop_trace dataset (acc_call negative_accumulator) 2 tt
     = [(F64.of_Z (-7), S754_finite false 6192449487634432 (-51));
        (F64.of_Z (-7), S754_finite false 6192449487634432 (-51))]
  /\ Forall (fun se => snd se = S754_nan \/ sign_of (snd se) = Some false)
       (loop_trace dataset (acc_call negative_accumulator) 2 tt)
  /\ 0 <= vec_size empty
  /\ m_error (generic empty (acc_call negative_accumulator) (example_state 2 0) tt)
     = S754_infinity false
  /\ m_error (generic empty (acc_call example_accumulator) (example_state 2 0) empty)
     = S754_nan
  /\ (m_error (generic empty (acc_call example_accumulator) (example_state 2 0) empty)
      = S754_nan
      \/ sign_of (m_error (generic empty (acc_call example_accumulator)
                             (example_state 2 0) empty)) = Some false).
Proof.
  intros dataset empty.
  assert (0 <= vec_size dataset) as H by (simpl; lia).
  assert (0 <= vec_size empty) as H' by (simpl; lia).
  split; [exact H|]. split; [reflexivity|].
  split; [exact (proj1 (error_is_never_negative dataset unit
                          (acc_call negative_accumulator) (example_state 2 0) tt 2 H))|].
  split; [exact H'|]. split; [reflexivity|]. split; [reflexivity|].
  exact (proj1 (proj2 (error_is_never_negative empty _
                         (acc_call example_accumulator) (example_state 2 0) empty 0 H'))).
Defined.

(** ** What the error metric says about particular sums *)

Lemma sum_expected_finite (dataset : vector) :
  1 <= vec_size dataset <= 2 ^ 53 ->
  exists (m : positive) (e : Z), sum_expected dataset = S754_finite false m e.
Proof.
  intros Hn. unfold sum_expected.
  destruct (Z.eq_dec (vec_size dataset) (2 ^ 53)) as [->|Hmax].
  - eexists _, _. vm_compute. reflexivity.
  - destruct (vec_size dataset) as [|p|p]; try lia.
    destruct (F64_of_Z_small p ltac:(lia)) as (m & k & -> & Hb & _).
    exists m, (- Z.of_nat k). now apply F64_mul_one.
Qed.

Lemma sub_self (s : bool) (m : positive) (e : Z) :
  F64.sub (S754_finite s m e) (S754_finite s m e) = S754_zero false.
Proof. unfold F64.sub, SFsub. now rewrite Z.sub_diag. Qed.

Lemma div_eucl_multiple (b c : Z) : 0 < b -> Z.div_eucl (b * c) b = (c, 0).
Proof.
  intros Hb. pose proof (Z.div_mul c b ltac:(lia)) as Hq.
  pose proof (Z.mod_mul c b ltac:(lia)) as Hr.
  unfold Z.div, Z.modulo in Hq, Hr. rewrite (Z.mul_comm b c).
  destruct (Z.div_eucl (c * b) b) as [q r]. now subst.
Qed.

Lemma new_location_exact (steps : Z) : new_location steps 0 = loc_Exact.
Proof. unfold new_location. destruct (Z.even steps); reflexivity. Qed.

(** A positive finite value divided by itself is [1.0]. *)
Lemma div_self (m : positive) (e : Z) :
  F64.div (S754_finite false m e) (S754_finite false m e) = F64.one.
Proof.
  unfold F64.div, SFdiv, SFdiv_core_binary.
  rewrite !Z.sub_diag.
  change (fexp F64.prec F64.emax 0) with (-53).
  change (Z.min (-53) 0) with (-53). change (0 - -53) with 53.
  cbv beta iota zeta.
  rewrite Z.shiftl_mul_pow2 by lia.
  rewrite div_eucl_multiple by lia. rewrite new_location_exact.
  vm_compute. reflexivity.
Qed.

Lemma relative_error_of_expected (m : positive) (e : Z) :
  relative_error (S754_finite false m e) (S754_finite false m e) = S754_zero false.
Proof. unfold relative_error. rewrite sub_self. reflexivity. Qed.

Lemma relative_error_of_zero (m : positive) (e : Z) :
  relative_error (S754_finite false m e) (F64.of_Z 0) = F64.one.
Proof. unfold relative_error. simpl F64.sub. simpl F64.abs. apply div_self. Qed.

Lemma relative_error_of_nan (expected : F64.t) :
  relative_error expected S754_nan = S754_nan.
Proof. destruct expected; reflexivity. Qed.

(** The locals at the end of a loop over an accumulator that answers [v] at
    every call. *)
Lemma timed_loop_constant (dataset : vector) {A} (call : A -> F64.t * A) (v : F64.t)
    (n : nat) (sum error : F64.t) (acc : A) :
  (forall a, fst (call a) = v) ->
  fst (timed_loop dataset call (S n) sum error acc)
  = (v, relative_error (sum_expected dataset) v).
Proof.
  intros Hv. revert sum error acc. induction n as [|n IH]; intros sum error acc.
  - simpl. unfold loop_body. pose proof (Hv acc) as H.
    destruct (call acc) as [s a']. simpl in *. now subst.
  - change (timed_loop dataset call (S (S n)) sum error acc)
      with (let '(sum', error', acc') := loop_body dataset call acc in
            timed_loop dataset call (S n) sum' error' acc').
    destruct (loop_body dataset call acc) as [[s1 e1] a1]. apply IH.
Qed.

Lemma generic_constant (dataset : vector) {A} (call : A -> F64.t * A) (v : F64.t)
    (state : State) (acc : A) :
  (forall a, fst (call a) = v) ->
  1 <= max_iterations state ->
  m_sum (generic dataset call state acc) = v
  /\ m_error (generic dataset call state acc) = relative_error (sum_expected dataset) v.
Proof.
  intros Hv Hn. unfold generic.
  destruct (Z.to_nat (max_iterations state)) as [|n] eqn:E; [lia|].
  pose proof (timed_loop_constant dataset call v n (F64.of_Z 0) (F64.of_Z 0) acc Hv) as H.
  destruct (timed_loop dataset call (S n) (F64.of_Z 0) (F64.of_Z 0) acc)
    as [[sum error] acc']. simpl in *. now inversion H.
Qed.

(** X2. For a dataset of 1 to 2^53 elements and an accumulator that returns
    exactly the element count, a run of at least one pass ends with the error
    +0.0, and the lead context publishes "error,%" as +0.0. *)
Theorem exact_sum_reports_no_error (dataset : vector) (A : Type) (call : A -> F64.t * A)
    (state : State) (acc : A) :
  1 <= vec_size dataset <= 2 ^ 53 ->
  (forall a, fst (call a) = F64.of_Z (vec_size dataset)) ->
  1 <= max_iterations state ->
  thread_index state = 0 ->
  m_error (generic dataset call state acc) = S754_zero false
  /\ published (m_state (generic dataset call state acc)) "error,%"
     = Some {| value := S754_zero false; flags := kDefaults |}.
Proof.
  intros Hn Hv Hiter H0.
  destruct (generic_constant dataset call _ state acc Hv Hiter) as [_ Herr].
  assert (m_error (generic dataset call state acc) = S754_zero false) as Hz.
  { rewrite Herr.
    assert (F64.of_Z (vec_size dataset) = sum_expected dataset) as ->
      by (unfold sum_expected; destruct (F64_of_Z_exact (vec_size dataset)) as [-> _];
          [lia | reflexivity]).
    destruct (sum_expected_finite dataset Hn) as (m & e & ->).
    apply relative_error_of_expected. }
  split; [exact Hz|]. rewrite published_error by exact H0. now rewrite Hz.
Qed.

Lemma exact_sum_reports_no_error_witness :
  let dataset := dataset_of_size 1024 in
  let state := example_state 3 0 in
  (1 <= vec_size dataset <= 2 ^ 53)
  /\ 1 <= max_iterations state
  /\ thread_index state = 0
  /\ m_error (generic dataset (acc_call (constant_accumulator (F64.of_Z 1024))) state tt)
     = S754_zero false.
Proof.
  intros dataset state.
  assert (1 <= vec_size dataset <= 2 ^ 53) as H1 by (simpl; lia).
  assert (1 <= max_iterations state) as H2 by (simpl; lia).
  assert (thread_index state = 0) as H3 by reflexivity.
  split; [exact H1|]. split; [exact H2|]. split; [exact H3|].
  exact (proj1 (exact_sum_reports_no_error dataset unit
                  (acc_call (constant_accumulator (F64.of_Z 1024))) state tt
                  H1 (fun _ => eq_refl) H2 H3)).
Defined.

(** X3. For a dataset of 1 to 2^53 elements and an accumulator that returns
    0, a run of at least one pass ends with the error exactly 1.0, and the lead
    context publishes "error,%" as exactly 100. *)
Theorem zero_sum_reports_full_error (dataset : vector) (A : Type) (call : A -> F64.t * A)
    (state : State) (acc : A) :
  1 <= vec_size dataset <= 2 ^ 53 ->
  (forall a, fst (call a) = F64.of_Z 0) ->
  1 <= max_iterations state ->
  thread_index state = 0 ->
  m_error (generic dataset call state acc) = F64.one
  /\ published (m_state (generic dataset call state acc)) "error,%"
     = Some {| value := F64.hundred; flags := kDefaults |}
  /\ counter_value (m_state (generic dataset call state acc)) "error,%" = Some 100.
Proof.
  intros Hn Hv Hiter H0.
  destruct (generic_constant dataset call _ state acc Hv Hiter) as [_ Herr].
  assert (m_error (generic dataset call state acc) = F64.one) as H1.
  { rewrite Herr. destruct (sum_expected_finite dataset Hn) as (m & e & ->).
    apply relative_error_of_zero. }
  assert (published (m_state (generic dataset call state acc)) "error,%"
          = Some {| value := F64.hundred; flags := kDefaults |}) as Hp.
  { rewrite published_error by exact H0. rewrite H1. reflexivity. }
  split; [exact H1|]. split; [exact Hp|].
  unfold counter_value. unfold published in Hp. now rewrite Hp.
Qed.

Lemma zero_sum_reports_full_error_witness :
  let dataset := dataset_of_size 1024 in
  let state := example_state 3 0 in
  (1 <= vec_size dataset <= 2 ^ 53)
  /\ 1 <= max_iterations state
  /\ thread_index state = 0
  /\ counter_value
       (m_state (generic dataset (acc_call (constant_accumulator (F64.of_Z 0))) state tt))
       "error,%" = Some 100.
Proof.
  intros dataset state.
  assert (1 <= vec_size dataset <= 2 ^ 53) as H1 by (simpl; lia).
  assert (1 <= max_iterations state) as H2 by (simpl; lia).
  assert (thread_index state = 0) as H3 by reflexivity.
  split; [exact H1|]. split; [exact H2|]. split; [exact H3|].
  exact (proj2 (proj2 (zero_sum_reports_full_error dataset unit
                         (acc_call (constant_accumulator (F64.of_Z 0))) state tt
                         H1 (fun _ => eq_refl) H2 H3))).
Defined.

(** X4. A NaN returned by the accumulator is not caught: after a run of at
    least one pass the error is a NaN, whatever the dataset, and the lead
    context publishes a NaN as "error,%". *)
Theorem nan_sum_reports_nan (dataset : vector) (A : Type) (call : A -> F64.t * A)
    (state : State) (acc : A) :
  (forall a, fst (call a) = S754_nan) ->
  1 <= max_iterations state ->
  m_error (generic dataset call state acc) = S754_nan
  /\ (thread_index state = 0 ->
      published (m_state (generic dataset call state acc)) "error,%"
      = Some {| value := S754_nan; flags := kDefaults |}).
Proof.
  intros Hv Hiter.
  destruct (generic_constant dataset call _ state acc Hv Hiter) as [_ Herr].
  rewrite relative_error_of_nan in Herr.
  split; [exact Herr|]. intros H0. rewrite published_error by exact H0.
  now rewrite Herr.
Qed.

Lemma nan_sum_reports_nan_witness :
  let dataset := dataset_of_size 1024 in
  let state := example_state 3 0 in
  1 <= max_iterations state
  /\ m_error (generic dataset (acc_call (constant_accumulator S754_nan)) state tt)
     = S754_nan.
Proof.
  intros dataset state.
  assert (1 <= max_iterations state) as H2 by (simpl; lia).
  split; [exact H2|].
  exact (proj1 (nan_sum_reports_nan dataset unit
                  (acc_call (constant_accumulator S754_nan)) state tt
                  (fun _ => eq_refl) H2)).
Defined.

(** ** What [generic] leaves alone *)

Lemma publish_frame (dataset : vector) (state : State) (error : F64.t) :
  max_iterations (publish dataset state error) = max_iterations state
  /\ thread_index (publish dataset state error) = thread_index state
  /\ forall key, key ∉ metric_names ->
       counters (publish dataset state error) !! key = counters state !! key.
Proof.
  unfold publish. destruct (thread_index state =? 0); [|now repeat split].
  repeat split. intros key Hkey. unfold metric_names in Hkey. simpl.
  rewrite !lookup_insert_ne; [reflexivity|..]; intros <-; apply Hkey;
    rewrite !elem_of_union, !elem_of_singleton; tauto.
Qed.

(** X5. [generic] changes nothing of the state but the three metrics: the
    pass count and the thread index are handed back as given, and every
    counter under another name keeps its value, for the lead context too. *)
Theorem generic_touches_only_the_metrics (dataset : vector) (A : Type)
    (call : A -> F64.t * A) (state : State) (acc : A) :
  max_iterations (m_state (generic dataset call state acc)) = max_iterations state
  /\ thread_index (m_state (generic dataset call state acc)) = thread_index state
  /\ forall key, key ∉ metric_names ->
       counters (m_state (generic dataset call state acc)) !! key = counters state !! key.
Proof. rewrite generic_state. apply publish_frame. Qed.

(** X6. When the loop makes no pass, the accumulator is never called: [sum]
    and [error] keep their initial +0.0 and the accumulator is handed back as
    constructed; the lead context then publishes an error of +0.0 percent. *)
Theorem no_pass_reports_no_error (dataset : vector) (A : Type) (call : A -> F64.t * A)
    (state : State) (acc : A) :
  max_iterations state <= 0 ->
  loop_trace dataset call (Z.to_nat (max_iterations state)) acc = []
  /\ m_sum (generic dataset call state acc) = S754_zero false
  /\ m_error (generic dataset call state acc) = S754_zero false
  /\ m_accumulator (generic dataset call state acc) = acc
  /\ (thread_index state = 0 ->
      published (m_state (generic dataset call state acc)) "error,%"
      = Some {| value := S754_zero false; flags := kDefaults |}).
Proof.
  intros Hn.
  assert (Z.to_nat (max_iterations state) = 0%nat) as E by lia.
  assert (m_error (generic dataset call state acc) = S754_zero false) as Herr
    by (unfold generic; rewrite E; reflexivity).
  rewrite E. split; [reflexivity|]. split; [unfold generic; rewrite E; reflexivity|].
  split; [exact Herr|]. split; [unfold generic; rewrite E; reflexivity|].
  intros H0. rewrite published_error by exact H0. now rewrite Herr.
Qed.

Lemma no_pass_reports_no_error_witness :
  let dataset := dataset_of_size 1024 in
  let state := example_state 0 0 in
  max_iterations state <= 0
  /\ m_accumulator (generic dataset (acc_call example_accumulator) state dataset) = dataset
  /\ counter_value (m_state (generic dataset (acc_call example_accumulator) state dataset))
       "error,%" = Some 0.
Proof.
  intros dataset state.
  assert (max_iterations state <= 0) as H by (simpl; lia).
  destruct (no_pass_reports_no_error dataset _ (acc_call example_accumulator)
              state dataset H) as (_ & _ & _ & Hacc & Hpub).
  split; [exact H|]. split; [exact Hacc|].
  pose proof (Hpub eq_refl) as Hp. unfold published in Hp.
  unfold counter_value. now rewrite Hp.
Defined.

(** ** The registry as a whole *)

Lemma cuda_cases_length (env : Env) :
  length (cuda_cases env) = if cuda_device_count env =? 0 then 0%nat else 3%nat.
Proof. unfold cuda_cases. now destruct (cuda_device_count env =? 0). Qed.

(** X7. Whenever the dataset can be allocated, [main] returns with the
    eleven CPU cases registered first, on every machine and in the order of
    the source, then the CUDA cases, then the OpenCL cases; the registry holds
    11 + (3 with a CUDA device, else 0) + |targets| x |kernels| x |sizes|
    cases. *)
Theorem registry_layout (env : Env) (argv : list string) :
  can_allocate env (elements_of argv) = true ->
  exists p : Process,
    run_main env argv = Returned 0 p
    /\ List.firstn 11 (registry p) = cpu_cases
    /\ List.skipn 11 (registry p) = cuda_cases env ++ opencl_cases env
    /\ length (registry p)
       = (11 + (if (cuda_device_count env =? 0)%Z then 0 else 3)
          + length (opencl_targets env) * length (kernels_k env)
            * length (opencl_wg_sizes env))%nat.
Proof.
  intros Halloc. eexists. split; [now apply main_returns|].
  simpl registry. unfold main_registry. split; [reflexivity|]. split; [reflexivity|].
  rewrite !length_app, cuda_cases_length, opencl_cases_length. simpl length. lia.
Qed.

Lemma registry_layout_witness :
  let env := example_env [example_target "A100"; example_target "MI250"] 1 in
  let argv := ["reduce_bench"; "1024"] in
  can_allocate env (elements_of argv) = true
  /\ exists p : Process,
       run_main env argv = Returned 0 p
       /\ List.firstn 11 (registry p) = cpu_cases
       /\ length (registry p) = 26%nat.
Proof.
  intros env argv.
  assert (can_allocate env (elements_of argv) = true) as Halloc by reflexivity.
  split; [exact Halloc|].
  destruct (registry_layout env argv Halloc) as (p & Hrun & Hcpu & _ & Hlen).
  exists p. split; [exact Hrun|]. split; [exact Hcpu | exact Hlen].
Defined.

(** X8. Every case [main] registers, static or dynamic, is set to a minimum
    time of 10 and to real time. *)
Theorem every_case_runs_ten_seconds_real_time (env : Env) (argv : list string) :
  can_allocate env (elements_of argv) = true ->
  exists p : Process,
    run_main env argv = Returned 0 p
    /\ Forall (fun b => bench_min_time b = 10 /\ bench_real_time b = true) (registry p).
Proof.
  intros Halloc. eexists. split; [now apply main_returns|].
  simpl registry. unfold main_registry. rewrite !Forall_app. split; [|split].
  - unfold cpu_cases. repeat constructor.
  - unfold cuda_cases. destruct (cuda_device_count env =? 0); repeat constructor.
  - apply List.Forall_forall. intros b Hb.
    apply in_opencl_cases in Hb as (t & k & g & _ & _ & _ & ->). now split.
Qed.

Lemma every_case_runs_ten_seconds_real_time_witness :
  let env := example_env [example_target "A100"] 1 in
  let argv := ["reduce_bench"; "1024"] in
  can_allocate env (elements_of argv) = true
  /\ exists p : Process,
       run_main env argv = Returned 0 p
       /\ Forall (fun b => bench_min_time b = 10 /\ bench_real_time b = true) (registry p).
Proof.
  intros env argv.
  assert (can_allocate env (elements_of argv) = true) as Halloc by reflexivity.
  split; [exact Halloc|].
  exact (every_case_runs_ten_seconds_real_time env argv Halloc).
Defined.

(** X9. With at least one CUDA device, [main] registers the cases
    "cuda_cub", "cuda_warps" and "cuda_thrust", in this order and right after
    the CPU cases, and does not print the line about missing CUDA devices. *)
Theorem cuda_device_registers_three_cases (env : Env) (argv : list string) :
  can_allocate env (elements_of argv) = true ->
  cuda_device_count env <> 0 ->
  exists p : Process,
    run_main env argv = Returned 0 p
    /\ List.filter is_cuda_case (registry p)
       = [ make_case "cuda_cub" (automatic_of cuda_cub_t);
           make_case "cuda_warps" (automatic_of cuda_warps_t);
           make_case "cuda_thrust" (automatic_of cuda_thrust_t) ]
    /\ List.firstn 3 (List.skipn 11 (registry p)) = List.filter is_cuda_case (registry p)
    /\ count_occ string_dec (stdout p) no_cuda_message = 0%nat.
Proof.
  intros Halloc Hcuda. eexists. split; [now apply main_returns|].
  simpl registry. simpl stdout. unfold main_registry, main_stdout, cuda_cases.
  replace (cuda_device_count env =? 0) with false by (symmetry; now apply Z.eqb_neq).
  assert (List.filter is_cuda_case (opencl_cases env) = []) as Hocl
    by (apply filter_none, opencl_cases_are_not_cuda).
  split; [|split].
  - rewrite !List.filter_app, Hocl. reflexivity.
  - rewrite !List.filter_app, Hocl. reflexivity.
  - rewrite !count_occ_app, count_occ_log_lines.
    destruct (argument_absent argv); reflexivity.
Qed.

Lemma cuda_device_registers_three_cases_witness :
  let env := example_env [] 2 in
  let argv := ["reduce_bench"; "1024"] in
  can_allocate env (elements_of argv) = true
  /\ cuda_device_count env <> 0
  /\ exists p : Process,
       run_main env argv = Returned 0 p
       /\ map bench_name (List.filter is_cuda_case (registry p))
          = ["cuda_cub"; "cuda_warps"; "cuda_thrust"]
       /\ stdout p = [].
Proof.
  intros env argv.
  assert (can_allocate env (elements_of argv) = true) as Halloc by reflexivity.
  assert (cuda_device_count env <> 0) as Hcuda by discriminate.
  split; [exact Halloc|]. split; [exact Hcuda|].
  destruct (cuda_device_registers_three_cases env argv Halloc Hcuda)
    as (p & Hrun & Hf & _ & _).
  exists p. split; [exact Hrun|]. split; [now rewrite Hf|].
  rewrite main_returns in Hrun by exact Halloc. now inversion Hrun.
Defined.

Lemma opencl_names_start (env : Env) (y : string) :
  In y (opencl_names env) -> starts_with "opencl-" y.
Proof.
  unfold opencl_names. intros Hy.
  apply in_flat_map in Hy as (t & _ & Hy). apply in_flat_map in Hy as (k & _ & Hy).
  apply in_map_iff in Hy as (g & <- & _).
  exists (k +:+ " split by " +:+ pretty g +:+ " on " +:+ device_name t). reflexivity.
Qed.

Lemma static_names_start (env : Env) (y : string) :
  In y (map bench_name (cpu_cases ++ cuda_cases env)) ->
  starts_with "cpu" y \/ starts_with "cuda" y.
Proof.
  unfold cpu_cases, cuda_cases. destruct (cuda_device_count env =? 0); simpl;
    intros H; repeat (destruct H as [<-|H]; [(left; eexists; reflexivity)
                                              || (right; eexists; reflexivity)|]);
    contradiction.
Qed.

Lemma static_names_NoDup (env : Env) :
  NoDup (map bench_name (cpu_cases ++ cuda_cases env)).
Proof.
  unfold cpu_cases, cuda_cases. destruct (cuda_device_count env =? 0);
    apply (bool_decide_unpack _); vm_compute; exact I.
Qed.

(** X10. No static case shares its name with an OpenCL case, whatever the
    devices and kernels are called: static names begin with "cpu" or "cuda",
    OpenCL names with "opencl-". So all registered names are pairwise distinct
    whenever the OpenCL names are (distinct device names, distinct kernel
    names without spaces, distinct sizes). *)
Theorem registered_names_are_distinct (env : Env) (argv : list string) :
  can_allocate env (elements_of argv) = true ->
  exists p : Process,
    run_main env argv = Returned 0 p
    /\ (forall b b', In b (registry p) -> In b' (registry p) ->
          is_opencl_case b = false -> is_opencl_case b' = true ->
          bench_name b <> bench_name b')
    /\ (NoDup (map device_name (opencl_targets env)) ->
        NoDup (kernels_k env) -> NoDup (opencl_wg_sizes env) ->
        Forall no_space (kernels_k env) ->
        NoDup (map bench_name (registry p))).
Proof.
  intros Halloc. eexists. split; [now apply main_returns|].
  simpl registry. unfold main_registry. rewrite app_assoc.
  assert (forall y, In y (map bench_name (cpu_cases ++ cuda_cases env)) ->
                    In y (opencl_names env) -> False) as Hdisjoint.
  { intros y Hs Hd. apply opencl_names_start in Hd as [r1 ->].
    apply static_names_start in Hs as [[r2 Hs]|[r2 Hs]]; discriminate. }
  split.
  - intros b b' Hb Hb' Hs Hd Heq.
    apply in_app_or in Hb as [Hb|Hb].
    2:{ apply in_opencl_cases in Hb as (t & k & g & _ & _ & _ & ->). discriminate. }
    apply in_app_or in Hb' as [Hb'|Hb'].
    { pose proof (static_cases_are_not_opencl env) as Hall.
      rewrite List.Forall_forall in Hall. rewrite (Hall _ Hb') in Hd. discriminate. }
    apply (Hdisjoint (bench_name b)).
    + now apply in_map.
    + rewrite Heq, <- opencl_cases_names. now apply in_map.
  - intros Hdev Hker Hsize Hns. rewrite map_app, opencl_cases_names.
    apply NoDup_app. split; [apply static_names_NoDup|]. split.
    + intros y Hs Hd. rewrite list_elem_of_In in Hs, Hd. exact (Hdisjoint y Hs Hd).
    + now apply opencl_names_NoDup.
Qed.

Lemma registered_names_are_distinct_witness :
  let env := example_env [example_target "A100"; example_target "MI250"] 1 in
  let argv := ["reduce_bench"; "1024"] in
  can_allocate env (elements_of argv) = true
  /\ exists p : Process,
       run_main env argv = Returned 0 p
       /\ length (registry p) = 26%nat
       /\ NoDup (map bench_name (registry p)).
Proof.
  intros env argv.
  assert (can_allocate env (elements_of argv) = true) as Halloc by reflexivity.
  split; [exact Halloc|].
  destruct (registered_names_are_distinct env argv Halloc) as (p & Hrun & _ & Hnd).
  exists p. split; [exact Hrun|]. split.
  - rewrite main_returns in Hrun by exact Halloc. now inversion Hrun.
  - apply Hnd.
    + apply (bool_decide_unpack _). vm_compute. exact I.
    + apply (bool_decide_unpack _). vm_compute. exact I.
    + apply (bool_decide_unpack _). vm_compute. exact I.
    + simpl. repeat constructor; discriminate.
Defined.

(** ** The startup output *)

Lemma opencl_log_line_contains (tgt : opencl_target) :
  starts_with "- OpenCL: " (opencl_log_line tgt)
  /\ contains (device_name tgt) (opencl_log_line tgt)
  /\ contains (device_version tgt) (opencl_log_line tgt)
  /\ contains (driver_version tgt) (opencl_log_line tgt)
  /\ contains (language_version tgt) (opencl_log_line tgt).
Proof.
  unfold starts_with, contains, opencl_log_line. repeat split.
  - eexists. reflexivity.
  - exists "- OpenCL: ". eexists. reflexivity.
  - exists ("- OpenCL: " +:+ device_name tgt +:+ " ("). eexists.
    rewrite !string_app_assoc. reflexivity.
  - exists ("- OpenCL: " +:+ device_name tgt +:+ " (" +:+ device_version tgt +:+ "), ").
    eexists. rewrite !string_app_assoc. reflexivity.
  - exists ("- OpenCL: " +:+ device_name tgt +:+ " (" +:+ device_version tgt +:+ "), "
            +:+ driver_version tgt +:+ ", ").
    eexists. rewrite !string_app_assoc. reflexivity.
Qed.

Lemma count_occ_log_lines_size (targets : list opencl_target) :
  count_occ string_dec (map opencl_log_line targets) no_size_message = 0%nat.
Proof.
  induction targets as [|t l IH]; [reflexivity|].
  simpl map. rewrite count_occ_cons_neq; [exact IH|].
  unfold opencl_log_line, no_size_message. discriminate.
Qed.

(** X11. Whenever the dataset can be allocated, [main] returns having
    printed, in this order: the line about the default size if and only if no
    argument was given, one line per discovered OpenCL target, in discovery
    order, that begins with "- OpenCL: " and contains the target's device
    name, device version, driver version and language version, and the line
    about missing CUDA devices if and only if there is none. *)
Theorem startup_output (env : Env) (argv : list string) :
  can_allocate env (elements_of argv) = true ->
  exists p : Process,
    run_main env argv = Returned 0 p
    /\ stdout p
       = (if argument_absent argv then [no_size_message] else [])
         ++ map opencl_log_line (opencl_targets env)
         ++ (if cuda_device_count env =? 0 then [no_cuda_message] else [])
    /\ count_occ string_dec (stdout p) no_size_message
       = (if argument_absent argv then 1 else 0)%nat
    /\ (forall tgt, In tgt (opencl_targets env) ->
          In (opencl_log_line tgt) (stdout p)
          /\ starts_with "- OpenCL: " (opencl_log_line tgt)
          /\ contains (device_name tgt) (opencl_log_line tgt)
          /\ contains (device_version tgt) (opencl_log_line tgt)
          /\ contains (driver_version tgt) (opencl_log_line tgt)
          /\ contains (language_version tgt) (opencl_log_line tgt)).
Proof.
  intros Halloc. eexists. split; [now apply main_returns|].
  simpl stdout. unfold main_stdout. split; [reflexivity|]. split.
  - rewrite !count_occ_app, count_occ_log_lines_size.
    destruct (argument_absent argv), (cuda_device_count env =? 0); reflexivity.
  - intros tgt Ht. split; [|apply opencl_log_line_contains].
    apply in_or_app. right. apply in_or_app. left. now apply in_map.
Qed.

Lemma startup_output_witness :
  let env := example_env [example_target "A100"] 0 in
  let argv := ["reduce_bench"] in
  can_allocate env (elements_of argv) = true
  /\ exists p : Process,
       run_main env argv = Returned 0 p
       /\ stdout p = [no_size_message; opencl_log_line (example_target "A100");
                      no_cuda_message].
Proof.
  intros env argv.
  assert (can_allocate env (elements_of argv) = true) as Halloc by reflexivity.
  split; [exact Halloc|].
  destruct (startup_output env argv Halloc) as (p & Hrun & Hout & _).
  exists p. split; [exact Hrun | exact Hout].
Defined.

(** X12. When the dataset cannot be allocated, [resize] throws before
    anything else happens: no target is logged, no case is registered, the
    dataset stays empty, and the only output is the line about the default
    size when no argument was given. *)
Theorem allocation_failure_registers_nothing (env : Env) (argv : list string) :
  can_allocate env (elements_of argv) = false ->
  exists p : Process,
    run_main env argv = Thrown bad_alloc_or_length_error p
    /\ registry p = []
    /\ vec_size (dataset p) = 0
    /\ stdout p = (if argument_absent argv then [no_size_message] else []).
Proof.
  intros Halloc. eexists. split; [now apply main_throws|]. now repeat split.
Qed.

Lemma allocation_failure_registers_nothing_witness :
  let env := example_env [example_target "A100"] 1 in
  let argv := ["reduce_bench"; "2000000000000"] in
  can_allocate env (elements_of argv) = false
  /\ exists p : Process,
       run_main env argv = Thrown bad_alloc_or_length_error p
       /\ registry p = [] /\ stdout p = [].
Proof.
  intros env argv.
  assert (can_allocate env (elements_of argv) = false) as Halloc by reflexivity.
  split; [exact Halloc|].
  destruct (allocation_failure_registers_nothing env argv Halloc)
    as (p & Hrun & Hreg & _ & Hout).
  exists p. split; [exact Hrun|]. split; [exact Hreg | exact Hout].
Defined.

(** ** Arguments that are not plain decimal numbers *)

Lemma atol_no_number (c : ascii) (rest : string) :
  isspace c = false -> c <> "-"%char -> c <> "+"%char -> digit_value c = None ->
  atol (String c rest) = 0.
Proof.
  intros Hs Hm Hp Hd.
  destruct c as [[] [] [] [] [] [] [] []];
    vm_compute in Hs, Hd; try discriminate;
    try (exfalso; apply Hm; reflexivity); try (exfalso; apply Hp; reflexivity);
    reflexivity.
Qed.

Lemma atol_sign_no_number (c : ascii) (rest : string) :
  digit_value c = None -> atol (String "-" (String c rest)) = 0.
Proof.
  intros Hd. unfold atol.
  change (skip_spaces (String "-" (String c rest))) with (String "-" (String c rest)).
  cbv iota beta. simpl read_digits. rewrite Hd. reflexivity.
Qed.

Lemma empty_dataset_run (env : Env) (argv : list string) :
  elements_of argv = 0 -> can_allocate env 0 = true ->
  exists p : Process, run_main env argv = Returned 0 p /\ vec_size (dataset p) = 0.
Proof.
  intros He Hcan. eexists. split; [apply main_returns; now rewrite He|].
  simpl dataset. now rewrite He.
Qed.

(** X13. An argument in which no number can be read is not rejected: when
    its first character is neither white space, a sign nor a digit, when it
    is empty, or when a minus sign is followed by a non-digit (as in an option
    of the timing framework, "--benchmark_filter=..."), [atol] gives 0, the
    element count is 0 and [main] returns with an empty dataset. *)
Theorem unreadable_argument_gives_empty_dataset
    (env : Env) (prog : string) (more : list string) :
  can_allocate env 0 = true ->
  (forall c rest,
     isspace c = false -> c <> "-"%char -> c <> "+"%char -> digit_value c = None ->
     exists p : Process,
       run_main env (prog :: String c rest :: more) = Returned 0 p
       /\ vec_size (dataset p) = 0)
  /\ (forall c rest,
        digit_value c = None ->
        exists p : Process,
          run_main env (prog :: String "-" (String c rest) :: more) = Returned 0 p
          /\ vec_size (dataset p) = 0)
  /\ (exists p : Process,
        run_main env (prog :: EmptyString :: more) = Returned 0 p
        /\ vec_size (dataset p) = 0).
Proof.
  intros Hcan. split; [|split].
  - intros c rest Hs Hm Hp Hd. apply empty_dataset_run; [|exact Hcan].
    rewrite elements_of_present, atol_no_number by assumption. reflexivity.
  - intros c rest Hd. apply empty_dataset_run; [|exact Hcan].
    rewrite elements_of_present, atol_sign_no_number by assumption. reflexivity.
  - apply empty_dataset_run; [|exact Hcan]. now rewrite elements_of_present.
Qed.

Lemma unreadable_argument_gives_empty_dataset_witness :
  let env := example_env [] 0 in
  can_allocate env 0 = true
  /\ (exists p : Process,
        run_main env ["reduce_bench"; "--benchmark_filter=cpu"] = Returned 0 p
        /\ vec_size (dataset p) = 0)
  /\ (exists p : Process,
        run_main env ["reduce_bench"; "million"] = Returned 0 p
        /\ vec_size (dataset p) = 0).
Proof.
  intros env.
  assert (can_allocate env 0 = true) as Hcan by reflexivity.
  destruct (unreadable_argument_gives_empty_dataset env "reduce_bench" [] Hcan)
    as (Hplain & Hsign & _).
  split; [exact Hcan|]. split.
  - exact (Hsign "-"%char "benchmark_filter=cpu" eq_refl).
  - apply (Hplain "m"%char "illion"); [reflexivity|discriminate|discriminate|reflexivity].
Defined.

Lemma pretty_go_app (x : N) (s t : string) :
  pretty_N_go x s +:+ t = pretty_N_go x (s +:+ t).
Proof.
  revert s. induction (N.lt_wf_0 x) as [x _ IH]. intros s.
  destruct (N.eq_dec x 0%N) as [->|Hx]; [reflexivity|].
  rewrite (pretty_N_go_step x s), (pretty_N_go_step x (s +:+ t)) by lia.
  rewrite IH by (apply N.div_lt; lia). reflexivity.
Qed.

(** [atol] stops at the first character that is not a digit. *)
Lemma atol_pretty_then_text (n : Z) (c : ascii) (rest : string) :
  LONG_MIN <= n <= LONG_MAX -> digit_value c = None ->
  atol (pretty n +:+ String c rest) = n.
Proof.
  intros Hn Hd. unfold LONG_MIN, LONG_MAX in Hn.
  destruct n as [|p|p].
  - change (pretty 0 +:+ String c rest) with (String "0" (String c rest)).
    unfold atol. change (skip_spaces (String "0" (String c rest)))
      with (String "0" (String c rest)).
    cbv iota beta. simpl read_digits. rewrite Hd. reflexivity.
  - rewrite pretty_positive_go, pretty_go_app.
    change ("" +:+ String c rest) with (String c rest).
    destruct (pretty_go_head (N.pos p) (String c rest) ltac:(lia)) as (d & r & Hdig & Hs).
    rewrite Hs, atol_leading_digit by exact Hdig.
    rewrite <- Hs, read_digits_pretty_go. simpl read_digits. rewrite Hd.
    unfold clamp_long, LONG_MIN, LONG_MAX. change (Z.of_N (N.pos p)) with (Z.pos p). lia.
  - rewrite pretty_negative_go, string_app_cons, pretty_go_app.
    change ("" +:+ String c rest) with (String c rest).
    unfold atol.
    change (skip_spaces (String "-" (pretty_N_go (N.pos p) (String c rest))))
      with (String "-" (pretty_N_go (N.pos p) (String c rest))).
    cbv iota beta. rewrite read_digits_pretty_go. simpl read_digits. rewrite Hd.
    unfold clamp_long, LONG_MIN, LONG_MAX. change (Z.of_N (N.pos p)) with (Z.pos p). lia.
Qed.

(** X14. Text after the digits of the argument is ignored, not rejected:
    the decimal text of a count [n] followed by any text that begins with a
    non-digit (as in "1024x", or "1e6", which is read as 1) gives the element
    count [n] and a dataset of [n] elements. *)
Theorem trailing_text_is_ignored
    (env : Env) (prog : string) (more : list string) (n : Z) (c : ascii) (rest : string) :
  0 <= n <= LONG_MAX ->
  digit_value c = None ->
  can_allocate env n = true ->
  atol (pretty n +:+ String c rest) = n
  /\ exists p : Process,
       run_main env (prog :: (pretty n +:+ String c rest) :: more) = Returned 0 p
       /\ vec_size (dataset p) = n.
Proof.
  intros Hn Hd Hcan.
  assert (atol (pretty n +:+ String c rest) = n) as Ha
    by (apply atol_pretty_then_text; [unfold LONG_MIN, LONG_MAX in *; lia | exact Hd]).
  assert (elements_of (prog :: (pretty n +:+ String c rest) :: more) = n) as He.
  { rewrite elements_of_present, Ha. apply to_size_t_small. unfold LONG_MAX in Hn. lia. }
  split; [exact Ha|].
  eexists. split; [apply main_returns; now rewrite He|].
  simpl dataset. now rewrite He.
Qed.

Lemma trailing_text_is_ignored_witness :
  let env := example_env [] 0 in
  (0 <= 1 <= LONG_MAX)
  /\ digit_value "e" = None
  /\ can_allocate env 1 = true
  /\ atol "1e6" = 1
  /\ exists p : Process,
       run_main env ["reduce_bench"; "1e6"] = Returned 0 p
       /\ vec_size (dataset p) = 1.
Proof.
  intros env.
  assert (0 <= 1 <= LONG_MAX) as H1 by (unfold LONG_MAX; lia).
  assert (digit_value "e" = None) as H2 by reflexivity.
  assert (can_allocate env 1 = true) as H3 by reflexivity.
  split; [exact H1|]. split; [exact H2|]. split; [exact H3|].
  exact (trailing_text_is_ignored env "reduce_bench" [] 1 "e"%char "6" H1 H2 H3).
Defined.

(** ** One more target *)

Lemma opencl_cases_of_target_length (env : Env) (tgt : opencl_target) :
  length (opencl_cases_of_target env tgt)
  = (length (kernels_k env) * length (opencl_wg_sizes env))%nat.
Proof.
  unfold opencl_cases_of_target. apply length_flat_map_uniform.
  intros kernel_name. apply length_map.
Qed.

(** X15. The cases of one target do not depend on the other targets:
    with one more target discovered after the others, [main] registers the
    same cases as before, in the same order, followed by the |kernels| x
    |sizes| cases of the new target. *)
Theorem another_target_appends_its_cases
    (env : Env) (targets : list opencl_target) (tgt : opencl_target) (argv : list string) :
  can_allocate env (elements_of argv) = true ->
  exists p p' : Process,
    run_main (with_targets env targets) argv = Returned 0 p
    /\ run_main (with_targets env (targets ++ [tgt])) argv = Returned 0 p'
    /\ registry p' = registry p ++ opencl_cases_of_target env tgt
    /\ length (registry p')
       = (length (registry p) + length (kernels_k env) * length (opencl_wg_sizes env))%nat.
Proof.
  intros Halloc. eexists _, _.
  split; [now apply main_returns|]. split; [now apply main_returns|].
  assert (main_registry (with_targets env (targets ++ [tgt]))
          = main_registry (with_targets env targets) ++ opencl_cases_of_target env tgt) as H.
  { unfold main_registry, opencl_cases, opencl_cases_of_target. simpl.
    rewrite flat_map_app. simpl flat_map. rewrite app_nil_r, !app_assoc. reflexivity. }
  simpl registry. split; [exact H|].
  rewrite H, length_app, opencl_cases_of_target_length. reflexivity.
Qed.

Lemma another_target_appends_its_cases_witness :
  let env := example_env [] 1 in
  let argv := ["reduce_bench"; "1024"] in
  can_allocate env (elements_of argv) = true
  /\ exists p p' : Process,
       run_main (with_targets env [example_target "A100"]) argv = Returned 0 p
       /\ run_main (with_targets env [example_target "A100"; example_target "MI250"]) argv
          = Returned 0 p'
       /\ registry p' = registry p ++ opencl_cases_of_target env (example_target "MI250")
       /\ length (registry p')
          = (length (registry p) + length (kernels_k env) * length (opencl_wg_sizes env))%nat.
Proof.
  intros env argv.
  assert (can_allocate env (elements_of argv) = true) as Halloc by reflexivity.
  split; [exact Halloc|].
  exact (another_target_appends_its_cases env [example_target "A100"]
           (example_target "MI250") argv Halloc).
Defined.

(** ** The last pass decides *)

Lemma timed_loop_last_call (dataset : vector) {A} (call : A -> F64.t * A)
    (n : nat) (sum error : F64.t) (acc : A) :
  fst (fst (timed_loop dataset call (S n) sum error acc))
  = fst (call (Nat.iter n (fun a => snd (call a)) acc)).
Proof.
  revert sum error acc. induction n as [|n IH]; intros sum error acc.
  - simpl. unfold loop_body. now destruct (call acc).
  - change (timed_loop dataset call (S (S n)) sum error acc)
      with (let '(sum', error', acc') := loop_body dataset call acc in
            timed_loop dataset call (S n) sum' error' acc').
    rewrite Nat.iter_succ_r. unfold loop_body at 1.
    destruct (call acc) as [s1 a1]. simpl snd. apply IH.
Qed.

(** X16. In a run of [n >= 1] passes the accumulator object is called [n]
    times in a row, each call on the object as the previous call left it; the
    sum that is kept is the one of the last call, the sums of the earlier
    passes are dropped, and the error is computed from that last sum alone. *)
Theorem last_pass_decides (dataset : vector) (A : Type) (call : A -> F64.t * A)
    (state : State) (acc : A) :
  1 <= max_iterations state ->
  let n := Z.to_nat (max_iterations state) in
  let after k := Nat.iter k (fun a => snd (call a)) acc in
  m_accumulator (generic dataset call state acc) = after n
  /\ m_sum (generic dataset call state acc) = fst (call (after (n - 1)%nat))
  /\ m_error (generic dataset call state acc)
     = relative_error (sum_expected dataset) (fst (call (after (n - 1)%nat))).
Proof.
  intros Hn n after.
  assert (m_sum (generic dataset call state acc) = fst (call (after (n - 1)%nat))) as Hs.
  { unfold generic. fold n. destruct n as [|k] eqn:E; [lia|].
    pose proof (timed_loop_last_call dataset call k (F64.of_Z 0) (F64.of_Z 0) acc) as H.
    destruct (timed_loop dataset call (S k) (F64.of_Z 0) (F64.of_Z 0) acc)
      as [[sum error] acc']. simpl in *. rewrite Nat.sub_0_r. exact H. }
  split; [|split].
  - unfold generic. fold n.
    pose proof (timed_loop_accumulator dataset call n (F64.of_Z 0) (F64.of_Z 0) acc) as H.
    destruct (timed_loop dataset call n (F64.of_Z 0) (F64.of_Z 0) acc)
      as [[sum error] acc']. exact H.
  - exact Hs.
  - rewrite <- Hs. now apply generic_error.
Qed.

Lemma last_pass_decides_witness :
  let dataset := dataset_of_size 4 in
  let state := example_state 3 0 in
  1 <= max_iterations state
  /\ map fst (loop_trace dataset (acc_call counting_accumulator) 3 0)
     = [F64.of_Z 1; F64.of_Z 2; F64.of_Z 3]
  /\ m_accumulator (generic dataset (acc_call counting_accumulator) state 0) = 3
  /\ m_sum (generic dataset (acc_call counting_accumulator) state 0) = F64.of_Z 3
  /\ m_error (generic dataset (acc_call counting_accumulator) state 0)
     = relative_error (sum_expected dataset) (F64.of_Z 3).
Proof.
  intros dataset state.
  assert (1 <= max_iterations state) as H by (simpl; lia).
  split; [exact H|]. split; [reflexivity|].
  exact (last_pass_decides dataset _ (acc_call counting_accumulator) state 0 H).
Defined.
